(** * wpspecdev: the transfer-matrix driver [TmmDriver] (wpspecdev/em.py)

    A shallow embedding of the class [TmmDriver] and of the numpy
    operations its methods use, followed by the properties of the
    transfer-matrix engine that can be settled on that code.

    Modelling conventions.
    - A Python float is an IEEE double; here it is a real number, and a
      complex double is a pair of reals.  Rounding and overflow are not
      modelled.  A value that leaves the reals (the inf/nan that numpy
      produces for a division by zero, with a RuntimeWarning and no
      exception) is [None] in [xfloat]/[xcomplex]; every later operation
      on it stays [None].  Where the conclusion of a statement about
      arbitrary values rests on a computed value being finite or exact,
      the statement bounds by [DBL_MAX] the results that a double could
      not hold, or takes the value from an operation that is exact on
      doubles (a product with 0, [exp(0)]); elsewhere a stored value is
      given by its formula over the reals.
    - An instance is its attribute dictionary, a [gmap string value].
      [TmmDriver.__init__] does not call the base-class constructor, so
      the dictionary starts empty; an attribute is defined when reading
      it does not raise [AttributeError].
    - A method is a computation in the monad [M]: it threads the
      attribute dictionary and the printed output, and ends normally or
      with a raised exception.  Attribute writes made before an
      exception is raised persist, as in Python.
    - A call [self.m(...)] looks [m] up on the instance before the
      class: a data attribute of that name hides the method, and calling
      it raises [TypeError]. *)

From Stdlib Require Import Reals Lra ZArith String List.
From stdpp Require Import base gmap strings list.

(* ===================================================================== *)
(** ** Complex numbers over the reals *)
(* ===================================================================== *)

Module Cplx.
Local Open Scope R_scope.

Record C : Type := mkC { re : R; im : R }.

Definition RtoC (x : R) : C := mkC x 0.
Definition Ci : C := mkC 0 1.
Definition C0 : C := mkC 0 0.

Definition Cadd (a b : C) : C := mkC (re a + re b) (im a + im b).
Definition Csub (a b : C) : C := mkC (re a - re b) (im a - im b).
Definition Cmul (a b : C) : C :=
  mkC (re a * re b - im a * im b) (re a * im b + im a * re b).
Definition Cnorm2 (a : C) : R := re a * re a + im a * im a.
Definition Cabs (a : C) : R := sqrt (Cnorm2 a).

(** [a / b] for [b <> 0]. *)
Definition Cquot (a b : C) : C :=
  mkC ((re a * re b + im a * im b) / Cnorm2 b)
      ((im a * re b - re a * im b) / Cnorm2 b).

(** Principal square root, as [numpy.sqrt] on a complex array: the real
    part is non-negative and the imaginary part has the sign of the
    imaginary part of the argument. *)
Definition Csqrt (a : C) : C :=
  mkC (sqrt ((Cabs a + re a) / 2))
      ((if Rcase_abs (im a) then -1 else 1) * sqrt ((Cabs a - re a) / 2)).

Definition Cexp (a : C) : C :=
  mkC (exp (re a) * cos (im a)) (exp (re a) * sin (im a)).

Definition Ccos (a : C) : C :=
  mkC (cos (re a) * cosh (im a)) (- (sin (re a) * sinh (im a))).

Definition Czero_dec (a : C) : {a = C0} + {a <> C0}.
Proof.
  destruct a as [x y].
  destruct (Req_dec_T x 0) as [Hx | Hx]; [| right; intros H; inversion H; contradiction].
  destruct (Req_dec_T y 0) as [Hy | Hy]; [| right; intros H; inversion H; contradiction].
  left; subst; reflexivity.
Defined.

End Cplx.
Export Cplx.

(* ===================================================================== *)
(** ** Doubles that may have left the reals *)
(* ===================================================================== *)

Abbreviation xfloat := (option R) (only parsing).
Abbreviation xcomplex := (option C) (only parsing).

Definition xlift1 {A B : Type} (f : A -> B) (a : option A) : option B :=
  match a with Some x => Some (f x) | None => None end.

Definition xlift2 {A B D : Type} (f : A -> B -> D)
    (a : option A) (b : option B) : option D :=
  match a, b with Some x, Some y => Some (f x y) | _, _ => None end.

Definition xRtoC : xfloat -> xcomplex := xlift1 RtoC.
Definition xfmul : xfloat -> xfloat -> xfloat := xlift2 Rmult.
Definition xcadd : xcomplex -> xcomplex -> xcomplex := xlift2 Cadd.
Definition xcsub : xcomplex -> xcomplex -> xcomplex := xlift2 Csub.
Definition xcmul : xcomplex -> xcomplex -> xcomplex := xlift2 Cmul.
Definition xcsqrt : xcomplex -> xcomplex := xlift1 Csqrt.
Definition xcexp : xcomplex -> xcomplex := xlift1 Cexp.
Definition xccos : xcomplex -> xcomplex := xlift1 Ccos.
Definition xfsin : xfloat -> xfloat := xlift1 sin.
Definition xfcos : xfloat -> xfloat := xlift1 cos.

(** Division of doubles: a zero divisor gives inf or nan, not an
    exception. *)
Definition xfdiv (a b : xfloat) : xfloat :=
  match a, b with
  | Some x, Some y => if Req_dec_T y 0 then None else Some (x / y)%R
  | _, _ => None
  end.

Definition xcdiv (a b : xcomplex) : xcomplex :=
  match a, b with
  | Some x, Some y => if Czero_dec y then None else Some (Cquot x y)
  | _, _ => None
  end.

(** A 2x2 complex array. *)
Record mat2 : Type := Mat2 { m00 : xcomplex; m01 : xcomplex;
                             m10 : xcomplex; m11 : xcomplex }.

Definition xc (x y : R) : xcomplex := Some (mkC x y).

(** [np.zeros((2,2), dtype=complex)] *)
Definition np_zeros22 : mat2 := Mat2 (xc 0 0) (xc 0 0) (xc 0 0) (xc 0 0).

Definition mat2_mul (a b : mat2) : mat2 :=
  Mat2 (xcadd (xcmul (m00 a) (m00 b)) (xcmul (m01 a) (m10 b)))
       (xcadd (xcmul (m00 a) (m01 b)) (xcmul (m01 a) (m11 b)))
       (xcadd (xcmul (m10 a) (m00 b)) (xcmul (m11 a) (m10 b)))
       (xcadd (xcmul (m10 a) (m01 b)) (xcmul (m11 a) (m11 b))).

Definition mat2_scale (k : xcomplex) (a : mat2) : mat2 :=
  Mat2 (xcmul k (m00 a)) (xcmul k (m01 a)) (xcmul k (m10 a)) (xcmul k (m11 a)).

(* ===================================================================== *)
(** ** Python values, exceptions, output, and the method monad *)
(* ===================================================================== *)

Inductive value : Type :=
| VNone
| VInt (n : Z)
| VFloat (x : xfloat)
| VComplex (z : xcomplex)
| VStr (s : string)
| VFloatArr (a : list xfloat)               (* 1-D float64 ndarray *)
| VComplexArr (a : list xcomplex)           (* 1-D complex128 ndarray *)
| VComplexArr2 (a : list (list xcomplex))   (* 2-D complex128 ndarray, by rows *)
| VMat (m : mat2).                          (* 2x2 complex128 ndarray *)

Record exn : Type := Exn { exn_class : string; exn_msg : string }.

Inductive outcome (A : Type) : Type :=
| Ok (a : A)
| Raise (e : exn).
Arguments Ok {A} a.
Arguments Raise {A} e.

(** What [print] writes. *)
Inductive event : Type :=
| PrintStr (s : string)
| PrintVal (label : string) (v : value)
| PrintMat (m : mat2).

Record pystate : Type := PyState { attrs : gmap string value; stdout : list event }.

Definition M (A : Type) : Type := pystate -> outcome A * pystate.

Definition ret {A} (a : A) : M A := fun s => (Ok a, s).

Definition bind {A B} (m : M A) (f : A -> M B) : M B :=
  fun s => match m s with
           | (Ok a, s') => f a s'
           | (Raise e, s') => (Raise e, s')
           end.

Definition raise {A} (cls msg : string) : M A := fun s => (Raise (Exn cls msg), s).

Declare Scope py_scope.
Delimit Scope py_scope with py.
Notation "x <- m ;; k" := (bind m (fun x => k))
  (at level 100, m at next level, right associativity) : py_scope.
Notation "m ;; k" := (bind m (fun _ => k))
  (at level 100, right associativity) : py_scope.
Open Scope py_scope.

(** Modelled from the spec: the base class [SpectrumDriver]
    (wpspecdev/spectrum_driver.py) is not among the sources.  The spec
    keeps the driver/factory dispatch outside the engine and lists no
    datum that the engine takes from it, so the class is taken to
    contribute no data attribute to an instance. *)
Definition SpectrumDriver_attrs : gmap string value := ∅.

(** [self.name]: the instance dictionary first, then the class. *)
Definition getattr (name : string) : M value :=
  fun s => match attrs s !! name with
           | Some v => (Ok v, s)
           | None =>
               match SpectrumDriver_attrs !! name with
               | Some v => (Ok v, s)
               | None => (Raise (Exn "AttributeError"
                            ("'TmmDriver' object has no attribute '" ++ name ++ "'")), s)
               end
           end.

(** [self.name = v] *)
Definition setattr (name : string) (v : value) : M unit :=
  fun s => (Ok tt, PyState (<[name := v]> (attrs s)) (stdout s)).

Definition print (e : event) : M unit :=
  fun s => (Ok tt, PyState (attrs s) (stdout s ++ [e])).

(** A name that is neither a local, nor one of the module's globals
    ([SpectrumDriver], [np], [TmmDriver]), nor a builtin. *)
Definition unbound_name {A} (name : string) : M A :=
  raise "NameError" ("name '" ++ name ++ "' is not defined").

(** The name of the type of a value, as an error message prints it. *)
Definition type_name (v : value) : string :=
  match v with
  | VNone => "NoneType"
  | VInt _ => "int"
  | VFloat _ => "float"
  | VComplex _ => "complex"
  | VStr _ => "str"
  | VFloatArr _ | VComplexArr _ | VComplexArr2 _ | VMat _ => "numpy.ndarray"
  end.

(** Calling a value that is not a function. *)
Definition not_callable (v : value) : exn :=
  Exn "TypeError" ("'" ++ type_name v ++ "' object is not callable").

(** [self.name(...)]: the name is looked up on the instance before the
    class, so a data attribute [name] of the instance hides the method,
    and the call of that value raises [TypeError]. *)
Definition call_method {A} (name : string) (method : M A) : M A :=
  fun s => match attrs s !! name with
           | Some v => (Raise (not_callable v), s)
           | None => method s
           end.

(** [for x in range(n): acc = body(x, acc)] *)
Fixpoint for_each {S} (xs : list nat) (body : nat -> S -> M S) (acc : S) : M S :=
  match xs with
  | [] => ret acc
  | x :: xs' => acc' <- body x acc ;; for_each xs' body acc'
  end.

Definition for_range {S} (n : nat) (body : nat -> S -> M S) (acc : S) : M S :=
  for_each (seq 0 n) body acc.

(** [[f(x) for x in range(n)]] *)
Fixpoint map_each {A} (xs : list nat) (f : nat -> M A) : M (list A) :=
  match xs with
  | [] => ret []
  | x :: xs' => y <- f x ;; ys <- map_each xs' f ;; ret (y :: ys)
  end.

(* --------------------------------------------------------------------- *)
(** *** Reading attributes at the types the class documents

    The attributes named in the class docstring hold floats, strings and
    float or complex arrays.  These readers take the attribute at its
    documented type; another kind of value is rejected with a
    [TypeError]. *)
(* --------------------------------------------------------------------- *)

Definition type_error {A} (what : string) : M A :=
  raise "TypeError" ("unsupported operand: expected " ++ what).

Definition as_float (v : value) : M xfloat :=
  match v with
  | VFloat x => ret x
  | VInt n => ret (Some (IZR n))
  | _ => type_error "float"
  end.

Definition as_complex (v : value) : M xcomplex :=
  match v with
  | VComplex z => ret z
  | VFloat x => ret (xRtoC x)
  | VInt n => ret (xc (IZR n) 0)
  | _ => type_error "complex"
  end.

Definition as_int (v : value) : M Z :=
  match v with VInt n => ret n | _ => type_error "int" end.

Definition as_float_array (v : value) : M (list xfloat) :=
  match v with VFloatArr a => ret a | _ => type_error "1-D float array" end.

Definition as_complex_array (v : value) : M (list xcomplex) :=
  match v with VComplexArr a => ret a | _ => type_error "1-D complex array" end.

Definition as_complex_array2 (v : value) : M (list (list xcomplex)) :=
  match v with VComplexArr2 a => ret a | _ => type_error "2-D complex array" end.

(** [len(v)] *)
Definition py_len (v : value) : M nat :=
  match v with
  | VFloatArr a => ret (length a)
  | VComplexArr a => ret (length a)
  | VComplexArr2 a => ret (length a)
  | VStr s => ret (String.length s)
  | VMat _ => ret 2%nat
  | VInt _ => raise "TypeError" "object of type 'int' has no len()"
  | VFloat _ => raise "TypeError" "object of type 'float' has no len()"
  | VComplex _ => raise "TypeError" "object of type 'complex' has no len()"
  | VNone => raise "TypeError" "object of type 'NoneType' has no len()"
  end.

Definition index_error {A} : M A :=
  raise "IndexError" "index is out of bounds".

(** [v[i]] for a non-negative index. *)
Definition subscript (v : value) (i : nat) : M value :=
  match v with
  | VFloatArr a =>
      match a !! i with Some x => ret (VFloat x) | None => index_error end
  | VComplexArr a =>
      match a !! i with Some z => ret (VComplex z) | None => index_error end
  | VComplexArr2 a =>
      match a !! i with Some r => ret (VComplexArr r) | None => index_error end
  | VMat m =>
      match i with
      | O => ret (VComplexArr [m00 m; m01 m])
      | S O => ret (VComplexArr [m10 m; m11 m])
      | _ => index_error
      end
  | VFloat _ | VComplex _ => raise "IndexError" "invalid index to scalar variable."
  | VInt _ => raise "TypeError" "'int' object is not subscriptable"
  | VNone => raise "TypeError" "'NoneType' object is not subscriptable"
  | VStr s =>
      match String.get i s with
      | Some c => ret (VStr (String c EmptyString))
      | None => raise "IndexError" "string index out of range"
      end
  end.

(* ===================================================================== *)
(** ** numpy array builders used by the constructor *)
(* ===================================================================== *)

(** [np.linspace(start, stop, num)]: [num] evenly spaced samples with
    both endpoints; numpy computes [start + i*step] and then stores
    [stop] in the last slot. *)
Definition linspace_list (start stop : R) (num : nat) : list R :=
  match num with
  | O => []
  | S O => [start]
  | S (S k as n1) =>
      map (fun i => (start + INR i * ((stop - start) / INR n1))%R) (seq 0 n1) ++ [stop]
  end.

Definition np_linspace (start stop : R) (num : Z) : M (list xfloat) :=
  if (num <? 0)%Z
  then raise "ValueError" "Number of samples must be non-negative."
  else ret (map Some (linspace_list start stop (Z.to_nat num))).

(** [np.tile(a, reps)] on a 1-D array *)
Definition np_tile {A} (a : list A) (reps : Z) : list A :=
  concat (replicate (Z.to_nat reps) a).

Fixpoint chunks {A} (rows cols : nat) (a : list A) : list (list A) :=
  match rows with
  | O => []
  | S r => take cols a :: chunks r cols (drop cols a)
  end.

(** [np.reshape(a, (rows, cols))] on a 1-D array, for the explicit
    (non-negative) dimensions the constructor passes. *)
Definition np_reshape {A} (a : list A) (rows cols : Z) : M (list (list A)) :=
  if ((0 <=? rows) && (0 <=? cols) && (Z.of_nat (length a) =? rows * cols))%Z
  then ret (chunks (Z.to_nat rows) (Z.to_nat cols) a)
  else raise "ValueError" "cannot reshape array".

(* ===================================================================== *)
(** ** [TmmDriver.__init__] *)
(* ===================================================================== *)

Definition empty_instance : pystate := PyState ∅ [].

Definition __init__ (thickness : R) : M unit :=
  setattr "thickness" (VFloat (Some thickness)) ;;
  setattr "number_of_wavelengths" (VInt 10) ;;
  setattr "number_of_layers" (VInt 3) ;;
  num <- (v <- getattr "number_of_wavelengths" ;; as_int v) ;;
  grid <- np_linspace 400e-9 800e-9 num ;;
  setattr "wavelength_array" (VFloatArr grid) ;;
  wl <- (v <- getattr "wavelength_array" ;; as_float_array v) ;;
  setattr "wavenumber_array" (VFloatArr (map (xfdiv (Some 1%R)) wl)) ;;
  setattr "thickness_array" (VFloatArr [Some 0%R; Some thickness; Some 0%R]) ;;
  setattr "polarization" (VStr "s") ;;
  setattr "incident_angle" (VFloat (Some 0%R)) ;;
  reps <- (v <- getattr "number_of_wavelengths" ;; as_int v) ;;
  rows <- (v <- getattr "number_of_wavelengths" ;; as_int v) ;;
  cols <- (v <- getattr "number_of_layers" ;; as_int v) ;;
  ri <- np_reshape (np_tile [xc 1 0; xc 1.5 0; xc 1 0] reps) rows cols ;;
  setattr "_refractive_index_array" (VComplexArr2 ri).

(** The instance that [TmmDriver(thickness)] returns. *)
Definition new_TmmDriver (thickness : R) : pystate := snd (__init__ thickness empty_instance).


(* ===================================================================== *)
(** ** numpy operations used by the spectrum methods *)
(* ===================================================================== *)

(** [a[i]] on a list, [IndexError] when out of range. *)
Definition item {A} (a : list A) (i : nat) : M A :=
  match a !! i with Some x => ret x | None => index_error end.

(** [a[:, j]] on a 2-D array *)
Fixpoint np_column {A} (a : list (list A)) (j : nat) : M (list A) :=
  match a with
  | [] => ret []
  | r :: a' => x <- item r j ;; xs <- np_column a' j ;; ret (x :: xs)
  end.

(** Elementwise binary operation on two 1-D arrays, with numpy's
    broadcasting of a length-one operand. *)
Definition broadcast2 {A B D} (f : A -> B -> D) (a : list A) (b : list B) : M (list D) :=
  if (length a =? length b)%nat then ret (zip_with f a b)
  else match a, b with
       | [x], _ => ret (map (f x) b)
       | _, [y] => ret (map (fun x => f x y) a)
       | _, _ => raise "ValueError" "operands could not be broadcast together"
       end.

(** [numpy.linalg] exports no [eye] (the identity constructor is
    [numpy.eye]): the attribute lookup [np.linalg.eye] raises before any
    argument is looked at. *)
Definition np_linalg_eye : M mat2 :=
  raise "AttributeError" "module 'numpy.linalg' has no attribute 'eye'".

(** [np.matmul(a, b)] with [a] a 2x2 array. *)
Definition np_matmul (a : mat2) (b : value) : M mat2 :=
  match b with
  | VMat m => ret (mat2_mul a m)
  | _ => raise "ValueError" "matmul: input operand does not have enough dimensions"
  end.

(** A local variable read after a loop that may not have bound it. *)
Definition local {A} (name : string) (o : option A) : M A :=
  match o with
  | Some x => ret x
  | None => raise "UnboundLocalError"
              ("cannot access local variable '" ++ name ++ "'")
  end.

(** [v == "lit"]: a value that is not a string is not equal to one. *)
Definition py_eq_str (v : value) (lit : string) : bool :=
  match v with VStr s => bool_decide (s = lit) | _ => false end.

(* ===================================================================== *)
(** ** [TmmDriver._compute_pm] *)
(* ===================================================================== *)

Definition _compute_pm (idx i : nat) : M mat2 :=
  let P := np_zeros22 in
  let ci := xc 0 1 in
  (* a = -1*ci*self._kxz_array[idx] * self.thickness_array[idx][i] *)
  k <- (v <- getattr "_kxz_array" ;; e <- subscript v idx ;; as_complex e) ;;
  d <- (v <- getattr "thickness_array" ;; r <- subscript v idx ;;
        e <- subscript r i ;; as_complex e) ;;
  let a := xcmul (xcmul (xcmul (xc (-1) 0) ci) k) d in
  (* b = ci*self._kxz_array[idx] * self.thickness_array[idx][i] *)
  k' <- (v <- getattr "_kxz_array" ;; e <- subscript v idx ;; as_complex e) ;;
  d' <- (v <- getattr "thickness_array" ;; r <- subscript v idx ;;
         e <- subscript r i ;; as_complex e) ;;
  let b := xcmul (xcmul ci k') d' in
  let P := Mat2 (m00 P) (xc 0 0) (m10 P) (m11 P) in
  let P := Mat2 (m00 P) (m01 P) (xc 0 0) (m11 P) in
  let P := Mat2 (xcexp a) (m01 P) (m10 P) (m11 P) in
  let P := Mat2 (m00 P) (m01 P) (m10 P) (xcexp b) in
  print (PrintMat P) ;;
  ret P.

(* ===================================================================== *)
(** ** [TmmDriver._compute_dm] *)
(* ===================================================================== *)

(** [self._refractive_index_array[idx][i]] and its misspelt sibling. *)
Definition index2 (name : string) (idx i : nat) : M xcomplex :=
  v <- getattr name ;; r <- subscript v idx ;; e <- subscript r i ;; as_complex e.

Definition cos_incident : M xfloat :=
  v <- getattr "incident_angle" ;; x <- as_float v ;; ret (xfcos x).

(** The polarization dispatch of the loop body: it fills [D], which
    starts as [np.zeros((2,2))]. *)
Definition dm_fill (idx i : nat) : M mat2 :=
  let D := np_zeros22 in
  pol <- getattr "polarization" ;;
  if py_eq_str pol "s" then
    let D := Mat2 (xc 1 0) (m01 D) (m10 D) (m11 D) in
    let D := Mat2 (m00 D) (xc 1 0) (m10 D) (m11 D) in
    c <- cos_incident ;;
    n <- index2 "_refractive_index_array" idx i ;;
    let D := Mat2 (m00 D) (m01 D) (xcmul (xRtoC c) n) (m11 D) in
    c' <- cos_incident ;;
    n' <- index2 "_refractive_index_array" idx i ;;
    let D := Mat2 (m00 D) (m01 D) (m10 D)
                  (xcmul (xRtoC (xfmul (Some (-1)%R) c')) n') in
    ret D
  else
    pol' <- getattr "polarization" ;;
    if py_eq_str pol' "p" then
      t <- (v <- getattr "incident_angle" ;; as_float v) ;;
      let D := Mat2 (xccos (xcadd (xRtoC t) (xc 0 0))) (m01 D) (m10 D) (m11 D) in
      t' <- (v <- getattr "incident_angle" ;; as_float v) ;;
      let D := Mat2 (m00 D) (xccos (xcadd (xRtoC t') (xc 0 0))) (m10 D) (m11 D) in
      n <- index2 "refractive_index_array" idx i ;;
      let D := Mat2 (m00 D) (m01 D) n (m11 D) in
      n' <- index2 "refractive_index_array" idx i ;;
      let D := Mat2 (m00 D) (m01 D) (m10 D) (xcmul (xc (-1) 0) n') in
      ret D
    else
      print (PrintStr "needs polarization s or p") ;;
      ret D.

(** [(D[0][0]*D[1][1])-(D[0][1]*D[1][0])] *)
Definition determinant (D : mat2) : xcomplex :=
  xcsub (xcmul (m00 D) (m11 D)) (xcmul (m01 D) (m10 D)).

(** [1/((D[0][0]*D[1][1])-(D[0][1]*D[1][0]))] *)
Definition inverse_determinant (D : mat2) : xcomplex :=
  xcdiv (xc 1 0) (determinant D).

(** One pass of the loop body: [D], then [D_inv], then [print(D)]. *)
Definition dm_iteration (idx i : nat) : M (mat2 * xcomplex) :=
  D <- dm_fill idx i ;;
  let D_inv := inverse_determinant D in
  print (PrintMat D) ;;
  ret (D, D_inv).

Definition _compute_dm (idx : nat) (num_layers : value) : M value :=
  M0 <- np_linalg_eye ;;
  n <- py_len num_layers ;;
  last <- for_range n (fun i _ => r <- dm_iteration idx i ;; ret (Some (i, r))) None ;;
  (* P = _compute_pm(idx, i): the method is called as a bare name *)
  P <- (unbound_name "_compute_pm" : M mat2) ;;
  if (idx =? 0)%nat then
    r <- local "D_inv" last ;; ret (VComplex (snd (snd r)))
  else
    lw <- (v <- getattr "wavenumber_array" ;; py_len v) ;;
    if (idx =? lw)%nat then
      r <- local "D" last ;; ret (VMat (fst (snd r)))
    else
      r <- local "D_inv" last ;;
      ret (VMat (mat2_scale (snd (snd r)) (mat2_mul (fst (snd r)) P))).

(* ===================================================================== *)
(** ** [TmmDriver._compute_tm], [_compute_kz] and [compute_spectrum] *)
(* ===================================================================== *)

Definition _compute_tm : M value :=
  M0 <- np_linalg_eye ;;
  nx <- (v <- getattr "wavenumber_array" ;; py_len v) ;;
  M1 <- for_range nx (fun x Mx =>
          ny <- (v <- getattr "number_of_layers" ;; py_len v) ;;
          for_range ny (fun y My =>
            hit <- (if (x =? 0)%nat then ret true
                    else lw <- (v <- getattr "wavenumber_array" ;; py_len v) ;;
                         ret (x =? lw)%nat) ;;
            if hit : bool then
              D <- call_method "_compute_dm" (_compute_dm x (VInt (Z.of_nat y))) ;;
              np_matmul My D
            else ret My) Mx) M0 ;;
  k0 <- getattr "_k0_array" ;;
  print (PrintVal "can _compute_tm() see the _k0_array?" k0) ;;
  kz <- getattr "_kz_array" ;;
  print (PrintVal "can _compute_tm() see the _kz_array?" kz) ;;
  ret VNone.

(** The normal wavevector of one layer as [_compute_kz] writes it:
    [sqrt((n*k0)**2 - kx**2)]. *)
Definition kz_formula (n : xcomplex) (k0 : xfloat) (kx : xcomplex) : xcomplex :=
  xcsqrt (xcsub (xcmul (xcmul n (xRtoC k0)) (xcmul n (xRtoC k0))) (xcmul kx kx)).

(** [o.name] on another instance [o]. *)
Definition getattr_of (o : gmap string value) (name : string) : M value :=
  match o !! name with
  | Some v => ret v
  | None => raise "AttributeError"
              ("'TmmDriver' object has no attribute '" ++ name ++ "'")
  end.

(** [_compute_kz] reads its arrays from a global [ml], which the module
    does not define; no method calls it.  [k0] and [kx] are turned into
    columns ([[:, np.newaxis]]), so each row of indices meets the [k0] and
    [kx] of its wavelength. *)
Definition _compute_kz : M unit :=
  ml <- (unbound_name "ml" : M (gmap string value)) ;;
  ri <- (v <- getattr_of ml "_refractive_index_array" ;; as_complex_array2 v) ;;
  ml' <- (unbound_name "ml" : M (gmap string value)) ;;
  k0 <- (v <- getattr_of ml' "_k0_array" ;; as_float_array v) ;;
  nk <- broadcast2 (fun r k => map (fun n => (n, k)) r) ri k0 ;;
  ml'' <- (unbound_name "ml" : M (gmap string value)) ;;
  kx <- (v <- getattr_of ml'' "_kx_array" ;; as_complex_array v) ;;
  rows <- broadcast2 (fun r x => map (fun p => kz_formula (fst p) (snd p) x) r) nk kx ;;
  setattr "_kz_array" (VComplexArr2 rows).

(** The elementwise formulas of [compute_spectrum]. *)

(** [np.pi * 2 / wavelength] *)
Definition k0_of (wavelength : xfloat) : xfloat := xfdiv (Some (PI * 2)%R) wavelength.

(** [n_incident * np.sin(incident_angle) * k0] *)
Definition kx_of (ns : xcomplex * xfloat) (k0 : xfloat) : xcomplex :=
  xcmul (xcmul (fst ns) (xRtoC (snd ns))) (xRtoC k0).

(** [wavenumber * n] *)
Definition ref_times (w : xfloat) (n : xcomplex) : xcomplex := xcmul (xRtoC w) n.

(** [np.sqrt(r**2 - (r * sin2))] with [sin2 = np.sin(incident_angle)**2] *)
Definition kzl_of (sin2 : xfloat) (r : xcomplex) : xcomplex :=
  xcsqrt (xcsub (xcmul r r) (xcmul r (xRtoC sin2))).

(** [self._k0_array = np.pi * 2 / self.wavelength_array] *)
Definition assign_k0_array : M unit :=
  wl <- (v <- getattr "wavelength_array" ;; as_float_array v) ;;
  setattr "_k0_array" (VFloatArr (map k0_of wl)).

(** [self._kx_array = self._refractive_index_array[:, 0]
                       * np.sin(self.incident_angle) * self._k0_array] *)
Definition assign_kx_array : M unit :=
  ri <- (v <- getattr "_refractive_index_array" ;; as_complex_array2 v) ;;
  n0 <- np_column ri 0 ;;
  s <- (v <- getattr "incident_angle" ;; x <- as_float v ;; ret (xfsin x)) ;;
  k0 <- (v <- getattr "_k0_array" ;; as_float_array v) ;;
  kx <- broadcast2 kx_of (map (fun n => (n, s)) n0) k0 ;;
  setattr "_kx_array" (VComplexArr kx).

(** [ref_times_wn = np.array([self.wavenumber_array[x]*self._refractive_index_array[x]
                              for x in range(len(self.wavenumber_array))])]
    [self._kzl_array = np.sqrt((ref_times_wn)**2
                               -(ref_times_wn*np.sin(self.incident_angle)**2))] *)
Definition assign_kzl_array : M unit :=
  nx <- (v <- getattr "wavenumber_array" ;; py_len v) ;;
  ref_times_wn <- map_each (seq 0 nx) (fun x =>
      w <- (v <- getattr "wavenumber_array" ;; a <- as_float_array v ;; item a x) ;;
      row <- (v <- getattr "_refractive_index_array" ;;
              a <- as_complex_array2 v ;; item a x) ;;
      ret (map (ref_times w) row)) ;;
  s2 <- (v <- getattr "incident_angle" ;; x <- as_float v ;;
         ret (xfmul (xfsin x) (xfsin x))) ;;
  setattr "_kzl_array" (VComplexArr2 (map (map (kzl_of s2)) ref_times_wn)).

Definition compute_spectrum : M unit :=
  assign_k0_array ;;
  assign_kx_array ;;
  assign_kzl_array ;;
  (* self._tm = self._compute_tm() *)
  tm <- call_method "_compute_tm" _compute_tm ;;
  setattr "_tm" tm.

(* ===================================================================== *)
(** ** Instances used in the statements *)
(* ===================================================================== *)

(** The grid of the constructor, [np.linspace(400e-9, 800e-9, 10)]. *)
Definition grid10 : list R := linspace_list 400e-9 800e-9 10.

(** The refractive indices of the three layers of the constructor. *)
Definition layers3 : list xcomplex := [xc 1 0; xc 1.5 0; xc 1 0].

(** [driver.name = v], an assignment made by the caller. *)
Definition with_attr (name : string) (v : value) (s : pystate) : pystate :=
  snd (setattr name v s).

(** A driver whose caller has set an unsupported polarization. *)
Definition driver_x : pystate :=
  with_attr "polarization" (VStr "x") (new_TmmDriver 100e-9).

(** A driver whose first layer has refractive index [0+0j]. *)
Definition driver_n0 : pystate :=
  with_attr "_refractive_index_array"
    (VComplexArr2 (replicate 10 [xc 0 0; xc 1.5 0; xc 1 0])) (new_TmmDriver 100e-9).

(** The result of a method call is an exception of class [cls]. *)
Definition raises_class {A} (cls : string) (r : outcome A * pystate) : Prop :=
  exists msg, fst r = Raise (Exn cls msg).

(** A method that ends with an exception from every state. *)
Definition fails {A} (m : M A) : Prop :=
  forall s, exists e s', m s = (Raise e, s').

(** A method that never writes the attribute [name]. *)
Definition preserves {A} (name : string) (m : M A) : Prop :=
  forall s, attrs (snd (m s)) !! name = attrs s !! name.

(** The exception raised by the lookup of [np.linalg.eye]. *)
Definition eye_error : exn :=
  Exn "AttributeError" "module 'numpy.linalg' has no attribute 'eye'".

Definition no_attribute (name : string) : exn :=
  Exn "AttributeError" ("'TmmDriver' object has no attribute '" ++ name ++ "'").

(** What [self._compute_tm()] raises on an instance: the call of a data
    attribute that hides the method, or else the failed lookup of
    [np.linalg.eye] in the method. *)
Definition tm_error (s : pystate) : exn :=
  match attrs s !! "_compute_tm" with
  | Some v => not_callable v
  | None => eye_error
  end.

(** The largest finite double, [(2 - 2^-52) * 2^1023].  The arithmetic
    of this development is that of the reals; a statement about every
    finite value bounds by [DBL_MAX] the results that a double could not
    hold. *)
Definition DBL_MAX : R := ((2 - / 2 ^ 52) * 2 ^ 1023)%R.

(** Two instances that hold the same value, or both none, for every
    attribute of [names]. *)
Definition agree (names : list string) (s1 s2 : pystate) : Prop :=
  forall x, x ∈ names -> attrs s1 !! x = attrs s2 !! x.

(** A computation that writes and prints nothing, and whose result
    depends only on the attributes of [names]. *)
Definition reads_only {A} (names : list string) (m : M A) : Prop :=
  forall s1 s2, agree names s1 s2 -> exists o, m s1 = (o, s1) /\ m s2 = (o, s2).

(** A statement that reads the attributes of [names] and then either
    raises, leaving the instance as it was, or assigns one value to the
    attribute [w] and does nothing else; which of the two, and the value,
    depend only on [names]. *)
Definition assigns (names : list string) (w : string) (m : M unit) : Prop :=
  forall s1 s2, agree names s1 s2 ->
    (exists e, m s1 = (Raise e, s1) /\ m s2 = (Raise e, s2)) \/
    (exists v, m s1 = (Ok tt, with_attr w v s1) /\ m s2 = (Ok tt, with_attr w v s2)).

(** What the three assignments of [compute_spectrum] read. *)
Definition k0_reads : list string := ["wavelength_array"].
Definition kx_reads : list string :=
  ["_refractive_index_array"; "incident_angle"; "_k0_array"].
Definition kzl_reads : list string :=
  ["wavenumber_array"; "_refractive_index_array"; "incident_angle"].


(** The three arrays that [compute_spectrum] writes. *)
Definition spectrum_writes : list string := ["_k0_array"; "_kx_array"; "_kzl_array"].

(** The rows [wavenumber[x] * index_row[x]] of [ref_times_wn], and the
    array stored in [_kzl_array], for an incident angle [theta]. *)
Definition kzl_rows (theta : xfloat) (wn : list xfloat) (ri : list (list xcomplex))
    : list (list xcomplex) :=
  map (map (kzl_of (xfmul (xfsin theta) (xfsin theta))))
      (zip_with (fun w row => map (ref_times w) row) wn ri).

(** One call of a method of the class on an instance, with its arguments. *)
Inductive call : Type :=
  | Call_compute_spectrum
  | Call__compute_kz
  | Call__compute_tm
  | Call__compute_dm (idx : nat) (num_layers : value)
  | Call__compute_pm (idx i : nat).

(** The call as a statement: what it returns is dropped. *)
Definition invoke (c : call) : M unit :=
  match c with
  | Call_compute_spectrum => compute_spectrum
  | Call__compute_kz => _compute_kz
  | Call__compute_tm => _ <- _compute_tm ;; ret tt
  | Call__compute_dm idx num_layers => _ <- _compute_dm idx num_layers ;; ret tt
  | Call__compute_pm idx i => _ <- _compute_pm idx i ;; ret tt
  end.

(** A client that makes the calls [cs] one after the other on the same
    instance, catching what each of them raises. *)
Definition invoke_all (cs : list call) (s : pystate) : pystate :=
  fold_left (fun s c => snd (invoke c s)) cs s.

(* ===================================================================== *)
(** ** Reasoning about methods: failure and frames *)
(* ===================================================================== *)

Section MethodLogic.
Context {A B : Type}.

Lemma fails_bind_l (m : M A) (f : A -> M B) : fails m -> fails (bind m f).
Proof.
  intros Hm s. destruct (Hm s) as (e & s' & Hs).
  exists e, s'. unfold bind. now rewrite Hs.
Qed.

Lemma fails_bind_r (m : M A) (f : A -> M B) :
  (forall a, fails (f a)) -> fails (bind m f).
Proof.
  intros Hf s. unfold bind.
  destruct (m s) as [[a | e] s'] eqn:Hs.
  - apply Hf.
  - now exists e, s'.
Qed.

Lemma preserves_bind name (m : M A) (f : A -> M B) :
  preserves name m -> (forall a, preserves name (f a)) -> preserves name (bind m f).
Proof.
  intros Hm Hf s. unfold bind. specialize (Hm s).
  destruct (m s) as [[a | e] s'] eqn:Hs; simpl in *.
  - now rewrite Hf.
  - exact Hm.
Qed.

Lemma preserves_ret name (a : A) : preserves name (ret a).
Proof. intros s. reflexivity. Qed.

Lemma preserves_raise name cls msg : preserves name (@raise A cls msg).
Proof. intros s. reflexivity. Qed.

End MethodLogic.

Lemma preserves_getattr name x : preserves name (getattr x).
Proof. intros s. unfold getattr. now destruct (attrs s !! x). Qed.

Lemma preserves_setattr name x v : x <> name -> preserves name (setattr x v).
Proof. intros Hne s. simpl. now apply lookup_insert_ne. Qed.

Lemma preserves_print name e : preserves name (print e).
Proof. intros s. reflexivity. Qed.

Lemma preserves_for_each {S} name xs (body : nat -> S -> M S) acc :
  (forall x a, preserves name (body x a)) -> preserves name (for_each xs body acc).
Proof.
  intros Hb. revert acc. induction xs as [| x xs IH]; intros acc; simpl.
  - apply preserves_ret.
  - apply preserves_bind; [apply Hb | intros a; apply IH].
Qed.

Lemma preserves_map_each {A} name xs (f : nat -> M A) :
  (forall x, preserves name (f x)) -> preserves name (map_each xs f).
Proof.
  intros Hf. induction xs as [| x xs IH]; simpl.
  - apply preserves_ret.
  - apply preserves_bind; [apply Hf | intros y].
    apply preserves_bind; [apply IH | intros ys; apply preserves_ret].
Qed.

Lemma preserves_np_column {A} name (a : list (list A)) j : preserves name (np_column a j).
Proof.
  induction a as [| r a IH]; simpl.
  - apply preserves_ret.
  - apply preserves_bind.
    + unfold item. destruct (r !! j); [apply preserves_ret | apply preserves_raise].
    + intros x. apply preserves_bind; [apply IH | intros xs; apply preserves_ret].
Qed.

Create HintDb frame.
#[local] Hint Resolve preserves_ret preserves_raise preserves_getattr
  preserves_print preserves_np_column : frame.

(** Frame of a straight-line method: peel the binds, then the leaves
    are attribute reads, coercions, or writes to another attribute. *)
Ltac frame_step :=
  first
    [ progress intros
    | solve [auto with frame]
    | apply preserves_setattr; congruence
    | apply preserves_for_each
    | apply preserves_map_each
    | apply preserves_bind
    | match goal with
      | |- preserves _ (match ?v with _ => _ end) => destruct v
      | |- preserves _ (if ?b then _ else _) => destruct b
      end ].

Ltac frame := repeat frame_step.

(* ===================================================================== *)
(** ** The methods that stop at [np.linalg.eye] *)
(* ===================================================================== *)

Lemma _compute_tm_raises (s : pystate) : _compute_tm s = (Raise eye_error, s).
Proof. reflexivity. Qed.

Lemma _compute_dm_raises idx num_layers (s : pystate) :
  _compute_dm idx num_layers s = (Raise eye_error, s).
Proof. reflexivity. Qed.

Lemma _compute_kz_raises (s : pystate) :
  _compute_kz s = (Raise (Exn "NameError" "name 'ml' is not defined"), s).
Proof. reflexivity. Qed.

Lemma preserves__compute_tm name : preserves name _compute_tm.
Proof. intros s. now rewrite _compute_tm_raises. Qed.

Lemma fails__compute_tm : fails _compute_tm.
Proof. intros s. exists eye_error, s. apply _compute_tm_raises. Qed.

#[local] Hint Resolve preserves__compute_tm : frame.

(** [self._compute_tm()]: whichever of the two it finds under the name,
    the call raises and leaves the instance as it was. *)
Lemma call__compute_tm_raises (s : pystate) :
  call_method "_compute_tm" _compute_tm s = (Raise (tm_error s), s).
Proof. unfold call_method, tm_error. now destruct (attrs s !! "_compute_tm"). Qed.

Lemma preserves_call__compute_tm name :
  preserves name (call_method "_compute_tm" _compute_tm).
Proof. intros s. now rewrite call__compute_tm_raises. Qed.

Lemma fails_call__compute_tm : fails (call_method "_compute_tm" _compute_tm).
Proof. intros s. exists (tm_error s), s. apply call__compute_tm_raises. Qed.

Lemma preserves_bind_fails {A B} name (m : M A) (f : A -> M B) :
  preserves name m -> fails m -> preserves name (bind m f).
Proof.
  intros Hp Hf s. unfold bind. specialize (Hp s).
  destruct (Hf s) as (e & s' & Hs). rewrite Hs in *. exact Hp.
Qed.

Lemma fails_compute_spectrum : fails compute_spectrum.
Proof.
  unfold compute_spectrum.
  repeat first [ apply fails_bind_l, fails_call__compute_tm | apply fails_bind_r; intros ? ].
Qed.

Lemma preserves_assign_k0_array name :
  name <> "_k0_array" -> preserves name assign_k0_array.
Proof. intros H. unfold assign_k0_array, as_float_array, type_error. frame. Qed.

Lemma preserves_assign_kx_array name :
  name <> "_kx_array" -> preserves name assign_kx_array.
Proof.
  intros H.
  unfold assign_kx_array, as_float_array, as_complex_array2, as_float, broadcast2,
    type_error.
  frame.
Qed.

Lemma preserves_assign_kzl_array name :
  name <> "_kzl_array" -> preserves name assign_kzl_array.
Proof.
  intros H.
  unfold assign_kzl_array, as_float_array, as_complex_array2, as_float, py_len,
    item, type_error, index_error.
  frame.
Qed.

(** The assignment to [_tm] is never reached. *)
Lemma preserves_assign_tm name :
  preserves name (tm <- call_method "_compute_tm" _compute_tm ;; setattr "_tm" tm).
Proof.
  apply preserves_bind_fails; [apply preserves_call__compute_tm | apply fails_call__compute_tm].
Qed.

(** [compute_spectrum] writes [_k0_array], [_kx_array] and [_kzl_array]
    and nothing else. *)
Lemma preserves_compute_spectrum name :
  name <> "_k0_array" -> name <> "_kx_array" -> name <> "_kzl_array" ->
  preserves name compute_spectrum.
Proof.
  intros H1 H2 H3. unfold compute_spectrum.
  apply preserves_bind; [now apply preserves_assign_k0_array | intros _].
  apply preserves_bind; [now apply preserves_assign_kx_array | intros _].
  apply preserves_bind; [now apply preserves_assign_kzl_array | intros _].
  apply preserves_assign_tm.
Qed.

Lemma bind_ok {A B} (m : M A) (f : A -> M B) s a s' :
  m s = (Ok a, s') -> bind m f s = f a s'.
Proof. intros H. unfold bind. now rewrite H. Qed.

Lemma np_column_ok {A} (a : list (list A)) (col : list A) j (s : pystate) :
  Forall2 (fun row x => row !! j = Some x) a col -> np_column a j s = (Ok col, s).
Proof.
  induction 1 as [| row x a col Hx _ IH]; [reflexivity |].
  simpl. unfold bind, item. rewrite Hx. simpl. now rewrite IH.
Qed.

Lemma zip_with_map_pair {A B D E} (f : A * E -> B -> D) (e : E) (g : B -> B)
    (xs : list A) (ys : list B) :
  zip_with f (map (fun x => (x, e)) xs) (map g ys)
    = zip_with (fun x y => f (x, e) (g y)) xs ys.
Proof.
  revert ys. induction xs as [| x xs IH]; intros [| y ys]; simpl; try reflexivity.
  now rewrite IH.
Qed.

(** For every grid, [compute_spectrum] stores [2*pi/lambda] at each
    wavelength. *)
Lemma compute_spectrum_k0 (s : pystate) wl :
  attrs s !! "wavelength_array" = Some (VFloatArr wl) ->
  attrs (snd (compute_spectrum s)) !! "_k0_array" = Some (VFloatArr (map k0_of wl)).
Proof.
  intros Hwl. unfold compute_spectrum.
  erewrite bind_ok; cycle 1.
  { unfold assign_k0_array, bind, getattr. rewrite Hwl. reflexivity. }
  match goal with |- attrs (snd (?m ?s1)) !! _ = _ =>
    assert (Hp : preserves "_k0_array" m); [| rewrite Hp] end.
  { apply preserves_bind; [now apply preserves_assign_kx_array | intros _].
    apply preserves_bind; [now apply preserves_assign_kzl_array | intros _].
    apply preserves_assign_tm. }
  apply lookup_insert_eq.
Qed.

(** For every grid and every stack whose index array has one row per
    wavelength, [compute_spectrum] stores [n_incident*sin(theta)*k0] at
    each wavelength. *)
Lemma compute_spectrum_kx (s : pystate) wl ri n0 theta :
  attrs s !! "wavelength_array" = Some (VFloatArr wl) ->
  attrs s !! "_refractive_index_array" = Some (VComplexArr2 ri) ->
  attrs s !! "incident_angle" = Some (VFloat theta) ->
  Forall2 (fun row n => row !! 0%nat = Some n) ri n0 ->
  length ri = length wl ->
  attrs (snd (compute_spectrum s)) !! "_kx_array"
    = Some (VComplexArr (zip_with (fun n l => kx_of (n, xfsin theta) (k0_of l)) n0 wl)).
Proof.
  intros Hwl Hri Hth Hcol Hlen. unfold compute_spectrum.
  erewrite bind_ok; cycle 1.
  { unfold assign_k0_array, bind, getattr. rewrite Hwl. reflexivity. }
  erewrite bind_ok; cycle 1.
  { unfold assign_kx_array, bind at 1 2. unfold getattr at 1. simpl.
    rewrite lookup_insert_ne by discriminate. rewrite Hri. simpl.
    erewrite bind_ok by (apply np_column_ok; exact Hcol).
    unfold bind at 1 2 3. unfold getattr at 1. simpl.
    rewrite lookup_insert_ne by discriminate. rewrite Hth. simpl.
    unfold bind at 1 2. unfold getattr at 1. simpl.
    rewrite lookup_insert_eq. simpl.
    unfold bind, broadcast2. rewrite !length_map.
    apply Forall2_length in Hcol. rewrite <- Hcol, Hlen, Nat.eqb_refl.
    reflexivity. }
  match goal with |- attrs (snd (?m ?s1)) !! _ = _ =>
    assert (Hp : preserves "_kx_array" m); [| rewrite Hp] end.
  { apply preserves_bind; [now apply preserves_assign_kzl_array | intros _].
    apply preserves_assign_tm. }
  simpl. rewrite lookup_insert_eq. now rewrite zip_with_map_pair.
Qed.

(* ===================================================================== *)
(** ** The constructor *)
(* ===================================================================== *)

Lemma grid10_formula :
  grid10 = map (fun i => (400e-9 + INR i * (400e-9 / 9))%R) (seq 0 10).
Proof.
  unfold grid10, linspace_list. simpl.
  repeat (f_equal; [lra |]). f_equal. lra.
Qed.

Lemma grid10_positive l : In l grid10 -> (0 < l)%R.
Proof.
  rewrite grid10_formula. simpl. intros H.
  repeat (destruct H as [H | H]; [subst l; lra |]). destruct H.
Qed.

(** C10.  After [TmmDriver.__init__(thickness)] returns, [thickness_array]
    is [[0, thickness, 0]], the wavelength grid is the ten evenly spaced
    points from 400 nm to 800 nm whatever [thickness] is, the polarization
    is ['s'] and the incident angle 0; the instance holds exactly the nine
    attributes the constructor assigns, reading [reflectivity_array],
    [transmissivity_array] or [emissivity_array] raises [AttributeError],
    and nothing was computed or printed. *)
Theorem init_fixed_configuration_no_spectrum (thickness : R) :
  fst (__init__ thickness empty_instance) = Ok tt /\
  attrs (new_TmmDriver thickness) !! "thickness_array"
    = Some (VFloatArr [Some 0%R; Some thickness; Some 0%R]) /\
  attrs (new_TmmDriver thickness) !! "wavelength_array"
    = Some (VFloatArr (map Some grid10)) /\
  grid10 = map (fun i => (400e-9 + INR i * (400e-9 / 9))%R) (seq 0 10) /\
  grid10 !! 0%nat = Some 400e-9%R /\
  grid10 !! 9%nat = Some 800e-9%R /\
  attrs (new_TmmDriver thickness) !! "polarization" = Some (VStr "s") /\
  attrs (new_TmmDriver thickness) !! "incident_angle" = Some (VFloat (Some 0%R)) /\
  dom (attrs (new_TmmDriver thickness))
    = {[ "thickness"; "number_of_wavelengths"; "number_of_layers";
         "wavelength_array"; "wavenumber_array"; "thickness_array";
         "polarization"; "incident_angle"; "_refractive_index_array" ]} /\
  fst (getattr "reflectivity_array" (new_TmmDriver thickness))
    = Raise (no_attribute "reflectivity_array") /\
  fst (getattr "transmissivity_array" (new_TmmDriver thickness))
    = Raise (no_attribute "transmissivity_array") /\
  fst (getattr "emissivity_array" (new_TmmDriver thickness))
    = Raise (no_attribute "emissivity_array") /\
  stdout (new_TmmDriver thickness) = [].
Proof.
  repeat split; try reflexivity.
  - apply grid10_formula.
  - unfold grid10, linspace_list. simpl. do 2 f_equal. lra.
Qed.

(** The two derived arrays of the constructor: one row of layer indices
    per wavelength, and [1/lambda] (not [2*pi/lambda]) as wavenumber. *)
Lemma new_TmmDriver_arrays (thickness : R) :
  attrs (new_TmmDriver thickness) !! "_refractive_index_array"
    = Some (VComplexArr2 (replicate 10 layers3)) /\
  attrs (new_TmmDriver thickness) !! "wavenumber_array"
    = Some (VFloatArr (map (fun l => Some (1 / l)%R) grid10)).
Proof.
  split; [reflexivity |].
  transitivity (Some (VFloatArr (map (fun l => xfdiv (Some 1%R) (Some l)) grid10)));
    [reflexivity |].
  do 2 f_equal. apply map_ext_in. intros l Hl.
  unfold xfdiv. destruct (Req_dec_T l 0) as [H0 | _]; [| reflexivity].
  apply grid10_positive in Hl. lra.
Qed.

(* ===================================================================== *)
(** ** [compute_spectrum] never reaches a spectrum *)
(* ===================================================================== *)

(** C2.  The claim needs [compute_spectrum] to produce R, T and the
    emissivity.  From every state the call ends with an exception and
    leaves [reflectivity_array], [transmissivity_array] and
    [emissivity_array] as they were; on a freshly constructed driver the
    exception is the failed lookup of [np.linalg.eye] and the three
    arrays are still undefined. *)
Theorem compute_spectrum_stores_no_spectrum (thickness : R) (s : pystate) :
  (exists e s', compute_spectrum s = (Raise e, s') /\
     attrs s' !! "reflectivity_array" = attrs s !! "reflectivity_array" /\
     attrs s' !! "transmissivity_array" = attrs s !! "transmissivity_array" /\
     attrs s' !! "emissivity_array" = attrs s !! "emissivity_array") /\
  fst (compute_spectrum (new_TmmDriver thickness)) = Raise eye_error /\
  attrs (snd (compute_spectrum (new_TmmDriver thickness))) !! "reflectivity_array" = None /\
  attrs (snd (compute_spectrum (new_TmmDriver thickness))) !! "transmissivity_array" = None /\
  attrs (snd (compute_spectrum (new_TmmDriver thickness))) !! "emissivity_array" = None.
Proof.
  split; [| repeat split; reflexivity].
  destruct (fails_compute_spectrum s) as (e & s' & Hs).
  exists e, s'. split; [exact Hs |].
  replace s' with (snd (compute_spectrum s)) by now rewrite Hs.
  repeat split; apply preserves_compute_spectrum; discriminate.
Qed.

(** C3.  The claim needs [_compute_tm] to return the composed matrix and
    [compute_spectrum] to take r, t, R, T and the emissivity from it.
    [_compute_tm] raises at its first statement from every state and
    returns nothing; [compute_spectrum] therefore never assigns [_tm],
    and ends with that exception on a constructed driver. *)
Theorem _compute_tm_returns_no_matrix (thickness : R) (s : pystate) :
  _compute_tm s = (Raise eye_error, s) /\
  attrs (snd (compute_spectrum s)) !! "_tm" = attrs s !! "_tm" /\
  compute_spectrum (new_TmmDriver thickness)
    = (Raise eye_error, snd (compute_spectrum (new_TmmDriver thickness))) /\
  attrs (snd (compute_spectrum (new_TmmDriver thickness))) !! "_tm" = None.
Proof.
  repeat split; try reflexivity.
  apply preserves_compute_spectrum; discriminate.
Qed.

(* ===================================================================== *)
(** ** The wavevector arrays of [compute_spectrum] *)
(* ===================================================================== *)

Section Wavevectors.
Local Open Scope R_scope.

Lemma xfdiv_nonzero a b : b <> 0 -> xfdiv (Some a) (Some b) = Some (a / b).
Proof. intros Hb. unfold xfdiv. now destruct (Req_dec_T b 0). Qed.

Lemma k0_of_wavelength l : l <> 0 -> k0_of (Some l) = Some (PI * 2 / l).
Proof. apply xfdiv_nonzero. Qed.

(** At normal incidence [sin] is 0 and the in-plane wavevector
    vanishes by plain multiplication. *)
Lemma kx_normal_incidence n k : kx_of (Some n, xfsin (Some 0)) (Some k) = xc 0 0.
Proof.
  unfold kx_of, xc. simpl. rewrite sin_0. unfold Cmul, RtoC. simpl.
  do 2 f_equal; ring.
Qed.

Lemma Csqrt_real_square a x : 0 <= x -> re a = x * x -> im a = 0 -> Csqrt a = mkC x 0.
Proof.
  intros Hx Hre Him. unfold Csqrt, Cabs, Cnorm2. rewrite Hre, Him.
  replace (x * x * (x * x) + 0 * 0) with ((x * x) * (x * x)) by ring.
  rewrite sqrt_square by nra.
  replace ((x * x + x * x) / 2) with (x * x) by lra.
  replace ((x * x - x * x) / 2) with 0 by lra.
  rewrite sqrt_square by exact Hx. rewrite sqrt_0.
  f_equal. ring.
Qed.

(** What [compute_spectrum] stores in [_kzl_array] at normal
    incidence: the refractive index over the wavelength. *)
Lemma kzl_normal_incidence l n :
  0 < l -> 0 <= n ->
  kzl_of (xfmul (xfsin (Some 0)) (xfsin (Some 0)))
         (ref_times (xfdiv (Some 1) (Some l)) (xc n 0)) = xc (n / l) 0.
Proof.
  intros Hl Hn. rewrite xfdiv_nonzero by lra.
  unfold kzl_of, ref_times, xc. simpl. rewrite sin_0. f_equal.
  apply Csqrt_real_square.
  - apply Rmult_le_pos; [exact Hn | left; now apply Rinv_0_lt_compat].
  - simpl. field. lra.
  - simpl. ring.
Qed.

(** What the claimed formula gives at normal incidence. *)
Lemma kz_formula_normal_incidence n k :
  0 <= n -> 0 <= k -> kz_formula (xc n 0) (Some k) (xc 0 0) = xc (n * k) 0.
Proof.
  intros Hn Hk. unfold kz_formula, xc. simpl. f_equal.
  apply Csqrt_real_square.
  - now apply Rmult_le_pos.
  - simpl. ring.
  - simpl. ring.
Qed.

(** [numpy.sqrt] does not pick the root by its imaginary part: a
    radicand below the real axis has its root below the real axis. *)
Lemma Csqrt_below_real_axis a : im a < 0 -> im (Csqrt a) < 0.
Proof.
  intros Him. unfold Csqrt. simpl.
  destruct (Rcase_abs (im a)) as [_ | Hge]; [| lra].
  assert (Hlt : re a < Cabs a).
  { unfold Cabs, Cnorm2. destruct (Rle_or_lt (re a) 0) as [Hre | Hre].
    - apply Rle_lt_trans with 0; [exact Hre |]. apply sqrt_lt_R0. nra.
    - rewrite <- (sqrt_square (re a)) at 1 by lra. apply sqrt_lt_1; nra. }
  assert (0 < sqrt ((Cabs a - re a) / 2)) by (apply sqrt_lt_R0; lra).
  lra.
Qed.
End Wavevectors.

(** C4.  On a constructed driver [compute_spectrum] stores
    [k0 = 2*pi/lambda] and [kx = n_incident*sin(theta)*k0], which is 0 at
    normal incidence, as claimed.  The normal wavevector it stores, in
    [_kzl_array], is [n/lambda] for each layer and wavelength; the
    claimed [sqrt((n*k0)^2 - kx^2)] is [n*2*pi/lambda], and the two
    differ, for instance for the middle layer at 400 nm.  [_kz_array] is
    never assigned, and [_compute_kz], which holds the claimed formula,
    stops at the undefined name [ml]. *)
Theorem compute_spectrum_stores_kzl_not_kz (thickness : R) :
  attrs (snd (compute_spectrum (new_TmmDriver thickness))) !! "_k0_array"
    = Some (VFloatArr (map (fun l => Some (PI * 2 / l)%R) grid10)) /\
  attrs (snd (compute_spectrum (new_TmmDriver thickness))) !! "_kx_array"
    = Some (VComplexArr (replicate 10 (xc 0 0))) /\
  attrs (snd (compute_spectrum (new_TmmDriver thickness))) !! "_kzl_array"
    = Some (VComplexArr2
        (map (fun l => [xc (1 / l) 0; xc (1.5 / l) 0; xc (1 / l) 0]) grid10)) /\
  attrs (snd (compute_spectrum (new_TmmDriver thickness))) !! "_kz_array" = None /\
  kz_formula (xc 1.5 0) (k0_of (Some 400e-9%R)) (xc 0 0)
    = xc (1.5 * (PI * 2 / 400e-9)) 0 /\
  xc (1.5 / 400e-9) 0 <> xc (1.5 * (PI * 2 / 400e-9)) 0 /\
  fst (_compute_kz (snd (compute_spectrum (new_TmmDriver thickness))))
    = Raise (Exn "NameError" "name 'ml' is not defined").
Proof.
  split; [| split; [| split; [| split; [| split; [| split]]]]].
  - transitivity (Some (VFloatArr (map (fun l => k0_of (Some l)) grid10)));
      [reflexivity |].
    do 2 f_equal. apply map_ext_in. intros l Hl.
    apply k0_of_wavelength. apply grid10_positive in Hl. lra.
  - transitivity (Some (VComplexArr
      (map (fun l => kx_of (xc 1 0, xfsin (Some 0%R)) (k0_of (Some l))) grid10)));
      [reflexivity |].
    do 2 f_equal.
    transitivity (map (fun _ : R => xc 0 0) grid10); [| reflexivity].
    apply map_ext_in. intros l Hl.
    rewrite k0_of_wavelength by (apply grid10_positive in Hl; lra).
    apply kx_normal_incidence.
  - transitivity (Some (VComplexArr2
      (map (fun l => map (fun n =>
              kzl_of (xfmul (xfsin (Some 0%R)) (xfsin (Some 0%R)))
                     (ref_times (xfdiv (Some 1%R) (Some l)) n)) layers3) grid10)));
      [reflexivity |].
    do 2 f_equal. apply map_ext_in. intros l Hl.
    apply grid10_positive in Hl. unfold layers3. cbn [map].
    rewrite !kzl_normal_incidence by lra. reflexivity.
  - reflexivity.
  - rewrite k0_of_wavelength by lra.
    apply kz_formula_normal_incidence; [lra |].
    pose proof PI_RGT_0. apply Rmult_le_pos; [lra |].
    left. apply Rinv_0_lt_compat. lra.
  - intros H. injection H as H. pose proof PI2_1. lra.
  - reflexivity.
Qed.

(* ===================================================================== *)
(** ** The propagation matrix, [_compute_pm] *)
(* ===================================================================== *)

(** Run a method on a state whose attributes are given by hypotheses:
    simplify, and replace each read by the value a hypothesis gives. *)
Ltac run_reads :=
  repeat first
    [ progress simpl
    | match goal with
      | H : ?l = Some _ |- context [?l] => rewrite H
      end ].

(** When both reads succeed (a 1-D [_kxz_array] and a 2-D
    [thickness_array]), the matrix built is
    [diag(exp(-1*i*k*d), exp(i*k*d))]. *)
Lemma _compute_pm_diagonal (s : pystate) idx i ks ds row k d :
  attrs s !! "_kxz_array" = Some (VComplexArr ks) -> ks !! idx = Some k ->
  attrs s !! "thickness_array" = Some (VComplexArr2 ds) ->
  ds !! idx = Some row -> row !! i = Some d ->
  let P := Mat2 (xcexp (xcmul (xcmul (xcmul (xc (-1) 0) (xc 0 1)) k) d)) (xc 0 0)
                (xc 0 0) (xcexp (xcmul (xcmul (xc 0 1) k) d)) in
  _compute_pm idx i s = (Ok P, PyState (attrs s) (stdout s ++ [PrintMat P])).
Proof.
  intros Hk Hki Hd Hdi Hdr. unfold _compute_pm, bind, getattr.
  run_reads. reflexivity.
Qed.

(** A run of the method on a hand-made instance that has both arrays
    in the shape the method indexes. *)
Example _compute_pm_diagonal_run :
  let s := with_attr "_kxz_array" (VComplexArr [xc 2 0; xc 3 0])
             (with_attr "thickness_array" (VComplexArr2 [[xc 5 0]; [xc 7 0]])
                empty_instance) in
  fst (_compute_pm 1 0 s)
    = Ok (Mat2 (xcexp (xcmul (xcmul (xcmul (xc (-1) 0) (xc 0 1)) (xc 3 0)) (xc 7 0)))
               (xc 0 0) (xc 0 0)
               (xcexp (xcmul (xcmul (xc 0 1) (xc 3 0)) (xc 7 0)))).
Proof.
  intros s.
  erewrite (_compute_pm_diagonal s 1 0); [reflexivity | reflexivity.. ].
Qed.

(** C5.  The claim needs [_compute_pm] to build
    [diag(exp(-i*kz*d), exp(+i*kz*d))] for the interior layers.  On a
    constructed driver, before and after [compute_spectrum], the method
    raises [AttributeError]: it reads [_kxz_array], which the constructor
    does not assign and [compute_spectrum] never writes.  If the caller
    supplies a 1-D [_kxz_array], the method raises [IndexError], because
    it indexes the 1-D [thickness_array] twice.  No layer, interior or
    boundary, receives a propagation matrix. *)
Theorem _compute_pm_builds_no_matrix (thickness : R) (idx i : nat) (kxz : list xcomplex) :
  let s0 := new_TmmDriver thickness in
  let s1 := snd (compute_spectrum s0) in
  _compute_pm idx i s0 = (Raise (no_attribute "_kxz_array"), s0) /\
  _compute_pm idx i s1 = (Raise (no_attribute "_kxz_array"), s1) /\
  (forall s, attrs (snd (compute_spectrum s)) !! "_kxz_array" = attrs s !! "_kxz_array") /\
  raises_class "IndexError"
    (_compute_pm idx i (with_attr "_kxz_array" (VComplexArr kxz) s1)).
Proof.
  split; [reflexivity |]. split; [reflexivity |].
  split; [intros s; apply preserves_compute_spectrum; discriminate |].
  unfold raises_class, _compute_pm, bind, getattr, with_attr. simpl.
  rewrite lookup_insert_eq. simpl.
  destruct (kxz !! idx) as [k |]; simpl; [| eexists; reflexivity].
  rewrite lookup_insert_ne by discriminate.
  destruct idx as [| [| [| idx]]]; eexists; reflexivity.
Qed.

(* ===================================================================== *)
(** ** The interface matrix, [_compute_dm] *)
(* ===================================================================== *)

Lemma Cmul_RtoC x n : Cmul (RtoC x) n = mkC (x * re n) (x * im n).
Proof. unfold Cmul, RtoC. simpl. f_equal; ring. Qed.

(** The s-polarization branch: rows [[1, 1]] and
    [[cos(theta)*n, -cos(theta)*n]]. *)
Lemma dm_fill_s_polarization (s : pystate) idx i theta ri row n :
  attrs s !! "polarization" = Some (VStr "s") ->
  attrs s !! "incident_angle" = Some (VFloat (Some theta)) ->
  attrs s !! "_refractive_index_array" = Some (VComplexArr2 ri) ->
  ri !! idx = Some row -> row !! i = Some (Some n) ->
  dm_fill idx i s
    = (Ok (Mat2 (xc 1 0) (xc 1 0)
                (xc (cos theta * re n) (cos theta * im n))
                (xc (-1 * cos theta * re n) (-1 * cos theta * im n))), s).
Proof.
  intros Hp Ht Hri Hrow Hn.
  unfold dm_fill, cos_incident, index2, bind, getattr.
  run_reads. unfold xc. now rewrite !Cmul_RtoC.
Qed.

(** On a constructed driver the s-branch is the one taken. *)
Lemma dm_fill_constructed (thickness : R) idx i n :
  (idx < 10)%nat -> layers3 !! i = Some (Some n) ->
  dm_fill idx i (new_TmmDriver thickness)
    = (Ok (Mat2 (xc 1 0) (xc 1 0)
                (xc (cos 0 * re n) (cos 0 * im n))
                (xc (-1 * cos 0 * re n) (-1 * cos 0 * im n))),
       new_TmmDriver thickness).
Proof.
  intros Hidx Hn.
  apply dm_fill_s_polarization with (ri := replicate 10 layers3) (row := layers3);
    try reflexivity; [| exact Hn].
  now apply lookup_replicate.
Qed.

(** C6.  The claim needs both branches of the interface matrix.  The
    s-branch builds the claimed rows ([dm_fill_s_polarization]); for the
    middle layer of a constructed driver they are [[1, 1]] and
    [[1.5, -1.5]].  With polarization ['p'] the branch reads
    [refractive_index_array], an attribute that does not exist (the array
    is [_refractive_index_array]), and raises [AttributeError] after
    filling the first row.  The method itself raises at [np.linalg.eye]
    before its loop, for either polarization. *)
Theorem interface_matrix_p_branch_fails (thickness : R) (idx i : nat) (num_layers : value) :
  let s := with_attr "polarization" (VStr "p") (new_TmmDriver thickness) in
  dm_fill 0 1 (new_TmmDriver thickness)
    = (Ok (Mat2 (xc 1 0) (xc 1 0) (xc 1.5 0) (xc (-1.5) 0)), new_TmmDriver thickness) /\
  dm_fill idx i s = (Raise (no_attribute "refractive_index_array"), s) /\
  _compute_dm idx num_layers s = (Raise eye_error, s) /\
  _compute_dm idx num_layers (new_TmmDriver thickness)
    = (Raise eye_error, new_TmmDriver thickness).
Proof.
  split; [| repeat split; reflexivity].
  rewrite (dm_fill_constructed thickness 0 1 (mkC 1.5 0)) by (try lia; reflexivity).
  simpl. rewrite cos_0. unfold xc.
  replace (1 * 1.5)%R with 1.5%R by lra. replace (1 * 0)%R with 0%R by lra.
  replace (-1 * 1 * 1.5)%R with (-1.5)%R by lra.
  replace (-1 * 1 * 0)%R with 0%R by lra. reflexivity.
Qed.

(* ===================================================================== *)
(** ** Unsupported polarization and zero determinant *)
(* ===================================================================== *)

Lemma inverse_determinant_zero D : determinant D = Some C0 -> inverse_determinant D = None.
Proof.
  intros H. unfold inverse_determinant. rewrite H. unfold xcdiv, xc.
  destruct (Czero_dec C0) as [_ | Hne]; [reflexivity | now destruct Hne].
Qed.

Lemma determinant_zeros : determinant np_zeros22 = Some C0.
Proof.
  unfold determinant, np_zeros22, xc, C0. simpl. f_equal.
  unfold Csub, Cmul. simpl. f_equal; ring.
Qed.

Lemma py_eq_str_false pol lit : pol <> VStr lit -> py_eq_str pol lit = false.
Proof.
  intros Hne. destruct pol; try reflexivity. simpl.
  apply bool_decide_eq_false. congruence.
Qed.

(** C7, as stated, fails: with polarization ['x'] a pass of the
    interface-matrix loop ends normally with the zero matrix, and neither
    [_compute_dm] nor [compute_spectrum] raises an
    [InvalidPolarizationError]. *)
Lemma unsupported_polarization_not_rejected :
  attrs driver_x !! "polarization" = Some (VStr "x") /\
  fst (dm_fill 0 0 driver_x) = Ok np_zeros22 /\
  ~ raises_class "InvalidPolarizationError" (dm_iteration 0 0 driver_x) /\
  ~ raises_class "InvalidPolarizationError" (_compute_dm 0 (VInt 3) driver_x) /\
  ~ raises_class "InvalidPolarizationError" (compute_spectrum driver_x).
Proof.
  split; [reflexivity |]. split; [reflexivity |].
  repeat split; intros [msg H].
  - change (fst (dm_iteration 0 0 driver_x))
      with (Ok (A := mat2 * option C) (np_zeros22, inverse_determinant np_zeros22)) in H.
    discriminate H.
  - change (fst (_compute_dm 0 (VInt 3) driver_x)) with (Raise (A := value) eye_error) in H.
    discriminate H.
  - change (fst (compute_spectrum driver_x)) with (Raise (A := unit) eye_error) in H.
    discriminate H.
Qed.

(** C7, amended.  When the polarization is neither ['s'] nor ['p'], a
    pass of the interface-matrix loop raises nothing: it prints
    "needs polarization s or p", leaves [D] as the 2x2 zero matrix, takes
    the inverse of its zero determinant (not finite), prints [D], and
    leaves the attributes as they were. *)
Theorem unsupported_polarization_prints_and_continues
    (s : pystate) (pol : value) (idx i : nat) :
  attrs s !! "polarization" = Some pol ->
  pol <> VStr "s" -> pol <> VStr "p" ->
  dm_iteration idx i s
    = (Ok (np_zeros22, None),
       PyState (attrs s)
         (stdout s ++ [PrintStr "needs polarization s or p"; PrintMat np_zeros22])).
Proof.
  intros Hpol Hs Hp.
  unfold dm_iteration, dm_fill, bind, getattr. rewrite Hpol.
  rewrite (py_eq_str_false _ _ Hs). cbn iota beta. rewrite Hpol.
  rewrite (py_eq_str_false _ _ Hp). cbn -[inverse_determinant np_zeros22].
  rewrite (inverse_determinant_zero _ determinant_zeros).
  now rewrite <- app_assoc.
Qed.

(** The amended C7 at the driver with polarization ['x']. *)
Lemma unsupported_polarization_prints_and_continues_witness :
  dm_iteration 0 0 driver_x
    = (Ok (np_zeros22, None),
       PyState (attrs driver_x)
         (stdout driver_x ++ [PrintStr "needs polarization s or p"; PrintMat np_zeros22])).
Proof.
  apply (unsupported_polarization_prints_and_continues driver_x (VStr "x") 0 0).
  - reflexivity.
  - discriminate.
  - discriminate.
Defined.

(* ===================================================================== *)
(** ** What a statement reads and what it assigns *)
(* ===================================================================== *)

Lemma agree_refl names s : agree names s s.
Proof. intros x _. reflexivity. Qed.

Lemma agree_with_attr names w v s : w ∉ names -> agree names s (with_attr w v s).
Proof.
  intros Hw x Hx. simpl. rewrite lookup_insert_ne; [reflexivity |].
  intros ->. contradiction.
Qed.

Lemma agree_trans names s1 s2 s3 : agree names s1 s2 -> agree names s2 s3 -> agree names s1 s3.
Proof. intros H12 H23 x Hx. now rewrite (H12 x Hx), (H23 x Hx). Qed.

Lemma with_attr_id w v s : attrs s !! w = Some v -> with_attr w v s = s.
Proof. intros H. destruct s as [a o]. unfold with_attr. simpl in *. now rewrite insert_id. Qed.


Section ReadsOnly.
Context {A B : Type}.

Lemma reads_only_ret names (a : A) : reads_only names (ret a).
Proof. intros s1 s2 _. now exists (Ok a). Qed.

Lemma reads_only_raise names cls msg : reads_only names (@raise A cls msg).
Proof. intros s1 s2 _. now exists (Raise (Exn cls msg)). Qed.

Lemma reads_only_bind names (p : M A) (f : A -> M B) :
  reads_only names p -> (forall a, reads_only names (f a)) -> reads_only names (bind p f).
Proof.
  intros Hp Hf s1 s2 Hag. destruct (Hp s1 s2 Hag) as (o & H1 & H2).
  unfold bind. rewrite H1, H2. destruct o as [a | e].
  - now apply Hf.
  - now exists (Raise e).
Qed.

End ReadsOnly.

Lemma reads_only_map_each {A} names xs (f : nat -> M A) :
  (forall x, reads_only names (f x)) -> reads_only names (map_each xs f).
Proof.
  intros Hf. induction xs as [| x xs IH]; simpl.
  - apply reads_only_ret.
  - apply reads_only_bind; [apply Hf | intros y].
    apply reads_only_bind; [apply IH | intros ys; apply reads_only_ret].
Qed.

Lemma reads_only_np_column {A} names (a : list (list A)) j : reads_only names (np_column a j).
Proof.
  induction a as [| r a IH]; simpl.
  - apply reads_only_ret.
  - apply reads_only_bind.
    + unfold item. destruct (r !! j); [apply reads_only_ret | apply reads_only_raise].
    + intros x. apply reads_only_bind; [apply IH | intros xs; apply reads_only_ret].
Qed.


Lemma reads_only_getattr names x : x ∈ names -> reads_only names (getattr x).
Proof.
  intros Hx s1 s2 Hag. unfold getattr. rewrite <- (Hag x Hx).
  destruct (attrs s1 !! x) as [v |]; [now exists (Ok v) |].
  destruct (SpectrumDriver_attrs !! x) as [v |]; eexists; split; reflexivity.
Qed.

(** Membership of a literal name in a literal list of names. *)
Ltac in_names := rewrite ?elem_of_cons; auto 10.
Ltac not_in_names :=
  rewrite ?not_elem_of_cons; repeat split; first [discriminate | apply not_elem_of_nil].

Create HintDb reads.
#[local] Hint Resolve reads_only_ret reads_only_raise reads_only_np_column : reads.

Ltac reads_step :=
  first
    [ progress intros
    | solve [auto with reads]
    | apply reads_only_getattr; in_names
    | apply reads_only_map_each
    | apply reads_only_bind
    | match goal with
      | |- reads_only _ (match ?v with _ => _ end) => destruct v
      | |- reads_only _ (if ?b then _ else _) => destruct b
      end ].

Ltac reads := repeat reads_step.

Lemma assigns_setattr names w v : assigns names w (setattr w v).
Proof. intros s1 s2 _. right. exists v. split; reflexivity. Qed.

Lemma assigns_bind {A} names w (p : M A) (f : A -> M unit) :
  reads_only names p -> (forall a, assigns names w (f a)) -> assigns names w (bind p f).
Proof.
  intros Hp Hf s1 s2 Hag. destruct (Hp s1 s2 Hag) as (o & H1 & H2).
  unfold bind. rewrite H1, H2. destruct o as [a | e].
  - now apply Hf.
  - left. now exists e.
Qed.

Ltac assigns_steps :=
  repeat first
    [ progress intros
    | apply assigns_setattr
    | apply assigns_bind; [solve [reads] |] ].

Lemma assigns_k0_array : assigns k0_reads "_k0_array" assign_k0_array.
Proof.
  unfold assign_k0_array, k0_reads, as_float_array, type_error. assigns_steps.
Qed.

Lemma assigns_kx_array : assigns kx_reads "_kx_array" assign_kx_array.
Proof.
  unfold assign_kx_array, kx_reads, as_float_array, as_complex_array2, as_float,
    broadcast2, type_error.
  assigns_steps.
Qed.

Lemma assigns_kzl_array : assigns kzl_reads "_kzl_array" assign_kzl_array.
Proof.
  unfold assign_kzl_array, kzl_reads, as_float_array, as_complex_array2, as_float,
    py_len, item, type_error, index_error.
  assigns_steps.
Qed.

Lemma assign_tm_raises s :
  (tm <- call_method "_compute_tm" _compute_tm ;; setattr "_tm" tm) s
    = (Raise (tm_error s), s).
Proof. unfold bind. now rewrite call__compute_tm_raises. Qed.

Lemma tm_error_with_attr name v s :
  name <> "_compute_tm" -> tm_error (with_attr name v s) = tm_error s.
Proof. intros H. unfold tm_error. simpl. now rewrite lookup_insert_ne. Qed.

(** The shape of one assignment on a single instance. *)
Lemma assigns_cases names w m s :
  assigns names w m ->
  (exists e, m s = (Raise e, s)) \/ (exists v, m s = (Ok tt, with_attr w v s)).
Proof.
  intros Hm. destruct (Hm s s (agree_refl _ _)) as [(e & H & _) | (v & H & _)]; eauto.
Qed.

(** Running an assignment again, on an instance that agrees on what it
    reads and already holds what it wrote, changes nothing. *)
Lemma assigns_again names w m s s' v :
  assigns names w m -> m s = (Ok tt, with_attr w v s) ->
  agree names s s' -> attrs s' !! w = Some v -> m s' = (Ok tt, s').
Proof.
  intros Hm Hs Hag Hw.
  destruct (Hm s s' Hag) as [(e & H1 & _) | (v' & H1 & H2)]; [congruence |].
  rewrite H2. rewrite Hs in H1. injection H1 as H1.
  assert (v = v') as <-.
  { apply (f_equal (fun t => t !! w)) in H1.
    rewrite !lookup_insert_eq in H1. congruence. }
  now rewrite with_attr_id.
Qed.

Lemma assigns_again_raise names w m s s' e :
  assigns names w m -> m s = (Raise e, s) -> agree names s s' -> m s' = (Raise e, s').
Proof.
  intros Hm Hs Hag.
  destruct (Hm s s' Hag) as [(e' & H1 & H2) | (v' & H1 & _)]; congruence.
Qed.


(* ===================================================================== *)
(** ** [compute_spectrum] as three assignments and a failing call *)
(* ===================================================================== *)

Lemma bind_raise {A B} (m : M A) (f : A -> M B) s e s' :
  m s = (Raise e, s') -> bind m f s = (Raise e, s').
Proof. intros H. unfold bind. now rewrite H. Qed.

(** Where a run of [compute_spectrum] stops, and the instance it leaves:
    the initial one with the arrays assigned so far. *)
Lemma compute_spectrum_cases s :
  (exists e, assign_k0_array s = (Raise e, s) /\ compute_spectrum s = (Raise e, s)) \/
  (exists v1 e,
     let s1 := with_attr "_k0_array" v1 s in
     assign_k0_array s = (Ok tt, s1) /\ assign_kx_array s1 = (Raise e, s1) /\
     compute_spectrum s = (Raise e, s1)) \/
  (exists v1 v2 e,
     let s1 := with_attr "_k0_array" v1 s in
     let s2 := with_attr "_kx_array" v2 s1 in
     assign_k0_array s = (Ok tt, s1) /\ assign_kx_array s1 = (Ok tt, s2) /\
     assign_kzl_array s2 = (Raise e, s2) /\ compute_spectrum s = (Raise e, s2)) \/
  (exists v1 v2 v3,
     let s1 := with_attr "_k0_array" v1 s in
     let s2 := with_attr "_kx_array" v2 s1 in
     let s3 := with_attr "_kzl_array" v3 s2 in
     assign_k0_array s = (Ok tt, s1) /\ assign_kx_array s1 = (Ok tt, s2) /\
     assign_kzl_array s2 = (Ok tt, s3) /\ compute_spectrum s = (Raise (tm_error s), s3)).
Proof.
  unfold compute_spectrum.
  destruct (assigns_cases _ _ _ s assigns_k0_array) as [(e1 & H1) | (v1 & H1)].
  { left. exists e1. split; [exact H1 | now apply bind_raise]. }
  right. rewrite (bind_ok _ _ _ _ _ H1).
  destruct (assigns_cases _ _ _ (with_attr "_k0_array" v1 s) assigns_kx_array)
    as [(e2 & H2) | (v2 & H2)].
  { left. exists v1, e2. repeat split; [exact H1 | exact H2 | now apply bind_raise]. }
  right. rewrite (bind_ok _ _ _ _ _ H2).
  destruct (assigns_cases _ _ _
              (with_attr "_kx_array" v2 (with_attr "_k0_array" v1 s)) assigns_kzl_array)
    as [(e3 & H3) | (v3 & H3)].
  { left. exists v1, v2, e3.
    repeat split; [exact H1 | exact H2 | exact H3 | now apply bind_raise]. }
  right. exists v1, v2, v3. rewrite (bind_ok _ _ _ _ _ H3).
  repeat split; [exact H1 | exact H2 | exact H3 |].
  rewrite assign_tm_raises. now rewrite !tm_error_with_attr by discriminate.
Qed.

Ltac solve_agree :=
  repeat first
    [ apply agree_refl
    | apply agree_with_attr;
      [unfold k0_reads, kx_reads, kzl_reads; not_in_names]
    | eapply agree_trans; [| apply agree_with_attr;
                              [unfold k0_reads, kx_reads, kzl_reads; not_in_names]] ].

(** A second call of [compute_spectrum] raises what the first raised and
    leaves the instance exactly as the first left it. *)
Theorem compute_spectrum_idempotent (s : pystate) :
  compute_spectrum (snd (compute_spectrum s)) = compute_spectrum s.
Proof.
  destruct (compute_spectrum_cases s)
    as [(e & H1 & Hs) | [(v1 & e & H1 & H2 & Hs) | [(v1 & v2 & e & H1 & H2 & H3 & Hs)
       | (v1 & v2 & v3 & H1 & H2 & H3 & Hs)]]];
    rewrite Hs; simpl; unfold compute_spectrum.
  - now apply bind_raise.
  - rewrite (bind_ok _ _ _ tt (with_attr "_k0_array" v1 s)).
    + now apply bind_raise.
    + eapply assigns_again; [apply assigns_k0_array | exact H1 | solve_agree |].
      simpl. now rewrite lookup_insert_eq.
  - rewrite (bind_ok _ _ _ tt (with_attr "_kx_array" v2 (with_attr "_k0_array" v1 s))).
    + rewrite (bind_ok _ _ _ tt (with_attr "_kx_array" v2 (with_attr "_k0_array" v1 s))).
      * now apply bind_raise.
      * eapply assigns_again; [apply assigns_kx_array | exact H2 | solve_agree |].
        simpl. now rewrite lookup_insert_eq.
    + eapply assigns_again; [apply assigns_k0_array | exact H1 | solve_agree |].
      simpl. rewrite lookup_insert_ne by discriminate. now rewrite lookup_insert_eq.
  - set (s3 := with_attr "_kzl_array" v3
                 (with_attr "_kx_array" v2 (with_attr "_k0_array" v1 s))).
    rewrite (bind_ok _ _ _ tt s3).
    + rewrite (bind_ok _ _ _ tt s3).
      * rewrite (bind_ok _ _ _ tt s3).
        { rewrite assign_tm_raises. unfold s3.
          now rewrite !tm_error_with_attr by discriminate. }
        eapply assigns_again; [apply assigns_kzl_array | exact H3 | solve_agree |].
        simpl. now rewrite lookup_insert_eq.
      * eapply assigns_again; [apply assigns_kx_array | exact H2 | solve_agree |].
        simpl. rewrite lookup_insert_ne by discriminate. now rewrite lookup_insert_eq.
    + eapply assigns_again; [apply assigns_k0_array | exact H1 | solve_agree |].
      simpl. rewrite !lookup_insert_ne by discriminate. now rewrite lookup_insert_eq.
Qed.



(** [compute_spectrum] prints nothing and writes no attribute but its
    three arrays, from every instance and however it ends. *)
Theorem compute_spectrum_keeps_configuration (s : pystate) (name : string) :
  name ∉ spectrum_writes ->
  attrs (snd (compute_spectrum s)) !! name = attrs s !! name /\
  stdout (snd (compute_spectrum s)) = stdout s.
Proof.
  unfold spectrum_writes. rewrite !not_elem_of_cons. intros (H1 & H2 & H3 & _).
  split; [now apply preserves_compute_spectrum |].
  destruct (compute_spectrum_cases s)
    as [(e & _ & Hs) | [(v1 & e & _ & _ & Hs) | [(v1 & v2 & e & _ & _ & _ & Hs)
       | (v1 & v2 & v3 & _ & _ & _ & Hs)]]];
    rewrite Hs; reflexivity.
Qed.

Lemma compute_spectrum_keeps_configuration_witness :
  attrs (snd (compute_spectrum (new_TmmDriver 100e-9))) !! "thickness_array"
    = attrs (new_TmmDriver 100e-9) !! "thickness_array" /\
  stdout (snd (compute_spectrum (new_TmmDriver 100e-9))) = stdout (new_TmmDriver 100e-9).
Proof.
  apply (compute_spectrum_keeps_configuration (new_TmmDriver 100e-9) "thickness_array").
  unfold spectrum_writes. rewrite !not_elem_of_cons.
  repeat split; first [discriminate | apply not_elem_of_nil].
Defined.

(* ===================================================================== *)
(** ** A run of [compute_spectrum] on a well-formed configuration *)
(* ===================================================================== *)

Lemma assign_k0_array_run s wl :
  attrs s !! "wavelength_array" = Some (VFloatArr wl) ->
  assign_k0_array s = (Ok tt, with_attr "_k0_array" (VFloatArr (map k0_of wl)) s).
Proof. intros H. unfold assign_k0_array, bind, getattr. now rewrite H. Qed.

Lemma zip_with_pair_l {A B D E} (f : A * E -> B -> D) (e : E) (xs : list A) (ys : list B) :
  zip_with f (map (fun x => (x, e)) xs) ys = zip_with (fun x y => f (x, e) y) xs ys.
Proof.
  revert ys. induction xs as [| x xs IH]; intros [| y ys]; simpl; try reflexivity.
  now rewrite IH.
Qed.

Lemma zip_with_map_r {A B B' D} (f : A -> B' -> D) (g : B -> B') (xs : list A) (ys : list B) :
  zip_with f xs (map g ys) = zip_with (fun x y => f x (g y)) xs ys.
Proof.
  revert ys. induction xs as [| x xs IH]; intros [| y ys]; simpl; try reflexivity.
  now rewrite IH.
Qed.

Lemma assign_kx_array_run s ri n0 theta k0 :
  attrs s !! "_refractive_index_array" = Some (VComplexArr2 ri) ->
  attrs s !! "incident_angle" = Some (VFloat theta) ->
  attrs s !! "_k0_array" = Some (VFloatArr k0) ->
  Forall2 (fun row n => row !! 0%nat = Some n) ri n0 ->
  length ri = length k0 ->
  assign_kx_array s
    = (Ok tt, with_attr "_kx_array"
                (VComplexArr (zip_with (fun n k => kx_of (n, xfsin theta) k) n0 k0)) s).
Proof.
  intros Hri Hth Hk0 Hcol Hlen. unfold assign_kx_array.
  erewrite bind_ok; cycle 1.
  { unfold bind, getattr. rewrite Hri. reflexivity. }
  erewrite bind_ok by (apply np_column_ok; exact Hcol).
  erewrite bind_ok; cycle 1.
  { unfold bind, getattr. rewrite Hth. reflexivity. }
  erewrite bind_ok; cycle 1.
  { unfold bind, getattr. rewrite Hk0. reflexivity. }
  erewrite bind_ok; cycle 1.
  { unfold broadcast2. rewrite length_map.
    apply Forall2_length in Hcol. rewrite <- Hcol, Hlen, Nat.eqb_refl. reflexivity. }
  now rewrite zip_with_pair_l.
Qed.

(** Two 1-D arrays whose lengths differ, neither being 1, do not
    broadcast. *)
Lemma broadcast2_mismatch {A B D} (f : A -> B -> D) (a : list A) (b : list B) s :
  length a <> length b -> length a <> 1%nat -> length b <> 1%nat ->
  broadcast2 f a b s
    = (Raise (Exn "ValueError" "operands could not be broadcast together"), s).
Proof.
  intros Hab Ha Hb. unfold broadcast2.
  destruct (Nat.eqb_spec (length a) (length b)) as [E | _]; [contradiction |].
  destruct a as [| x [| x' a]]; destruct b as [| y [| y' b]];
    simpl in *; try reflexivity; contradiction.
Qed.

Lemma assign_kx_array_mismatch s ri n0 theta k0 :
  attrs s !! "_refractive_index_array" = Some (VComplexArr2 ri) ->
  attrs s !! "incident_angle" = Some (VFloat theta) ->
  attrs s !! "_k0_array" = Some (VFloatArr k0) ->
  Forall2 (fun row n => row !! 0%nat = Some n) ri n0 ->
  length ri <> length k0 -> length ri <> 1%nat -> length k0 <> 1%nat ->
  assign_kx_array s
    = (Raise (Exn "ValueError" "operands could not be broadcast together"), s).
Proof.
  intros Hri Hth Hk0 Hcol Hne H1 H2. unfold assign_kx_array.
  erewrite bind_ok; cycle 1.
  { unfold bind, getattr. rewrite Hri. reflexivity. }
  erewrite bind_ok by (apply np_column_ok; exact Hcol).
  erewrite bind_ok; cycle 1.
  { unfold bind, getattr. rewrite Hth. reflexivity. }
  erewrite bind_ok; cycle 1.
  { unfold bind, getattr. rewrite Hk0. reflexivity. }
  apply bind_raise. apply Forall2_length in Hcol.
  apply broadcast2_mismatch; rewrite ?length_map; congruence.
Qed.

(** The list comprehension of [ref_times_wn], from index [k] on. *)
Lemma ref_times_rows_run s wn ri :
  attrs s !! "wavenumber_array" = Some (VFloatArr wn) ->
  attrs s !! "_refractive_index_array" = Some (VComplexArr2 ri) ->
  length wn <= length ri ->
  forall n k, k + n = length wn ->
  map_each (seq k n) (fun x =>
      w <- (v <- getattr "wavenumber_array" ;; a <- as_float_array v ;; item a x) ;;
      row <- (v <- getattr "_refractive_index_array" ;;
              a <- as_complex_array2 v ;; item a x) ;;
      ret (map (ref_times w) row)) s
    = (Ok (zip_with (fun w row => map (ref_times w) row) (drop k wn) (drop k ri)), s).
Proof.
  intros Hwn Hri Hle n. induction n as [| n IH]; intros k Hk.
  - simpl. rewrite drop_ge by lia. reflexivity.
  - destruct (lookup_lt_is_Some_2 wn k) as [w Hw]; [lia |].
    destruct (lookup_lt_is_Some_2 ri k) as [row Hrow]; [lia |].
    rewrite (drop_S _ _ _ Hw), (drop_S _ _ _ Hrow). simpl.
    erewrite bind_ok; cycle 1.
    { unfold bind, getattr, item. rewrite Hwn. simpl. rewrite Hw. simpl.
      rewrite Hri. simpl. rewrite Hrow. reflexivity. }
    erewrite bind_ok by (apply IH; lia). reflexivity.
Qed.

Lemma assign_kzl_array_run s wn ri theta :
  attrs s !! "wavenumber_array" = Some (VFloatArr wn) ->
  attrs s !! "_refractive_index_array" = Some (VComplexArr2 ri) ->
  attrs s !! "incident_angle" = Some (VFloat theta) ->
  length wn <= length ri ->
  assign_kzl_array s
    = (Ok tt, with_attr "_kzl_array" (VComplexArr2 (kzl_rows theta wn ri)) s).
Proof.
  intros Hwn Hri Hth Hle. unfold assign_kzl_array.
  erewrite bind_ok; cycle 1.
  { unfold bind, getattr. rewrite Hwn. reflexivity. }
  erewrite bind_ok by (apply (ref_times_rows_run s wn ri Hwn Hri Hle); lia).
  erewrite bind_ok; cycle 1.
  { unfold bind, getattr. rewrite Hth. reflexivity. }
  reflexivity.
Qed.

Lemma compute_spectrum_run (s : pystate) wl wn ri n0 theta :
  attrs s !! "wavelength_array" = Some (VFloatArr wl) ->
  attrs s !! "wavenumber_array" = Some (VFloatArr wn) ->
  attrs s !! "_refractive_index_array" = Some (VComplexArr2 ri) ->
  attrs s !! "incident_angle" = Some (VFloat theta) ->
  Forall2 (fun row n => row !! 0%nat = Some n) ri n0 ->
  length ri = length wl ->
  length wn <= length ri ->
  compute_spectrum s
    = (Raise (tm_error s),
       with_attr "_kzl_array" (VComplexArr2 (kzl_rows theta wn ri))
         (with_attr "_kx_array"
            (VComplexArr (zip_with (fun n l => kx_of (n, xfsin theta) (k0_of l)) n0 wl))
            (with_attr "_k0_array" (VFloatArr (map k0_of wl)) s))).
Proof.
  intros Hwl Hwn Hri Hth Hcol Hlen Hle. unfold compute_spectrum.
  rewrite (bind_ok _ _ _ _ _ (assign_k0_array_run s wl Hwl)).
  erewrite bind_ok; cycle 1.
  { apply (assign_kx_array_run _ ri n0 theta (map k0_of wl)); simpl;
      rewrite ?lookup_insert_ne by discriminate; try assumption.
    - apply lookup_insert_eq.
    - now rewrite length_map. }
  rewrite zip_with_map_r.
  erewrite bind_ok; cycle 1.
  { apply (assign_kzl_array_run _ wn ri theta); simpl;
      rewrite ?lookup_insert_ne by discriminate; assumption. }
  rewrite assign_tm_raises. now rewrite !tm_error_with_attr by discriminate.
Qed.

Lemma kzl_rows_length theta wn (ri : list (list xcomplex)) :
  length wn <= length ri -> length (kzl_rows theta wn ri) = length wn.
Proof.
  intros H. unfold kzl_rows. rewrite length_map, length_zip_with. lia.
Qed.

(** On a configuration whose arrays match (one row of indices per
    wavelength, at least as many rows as wavenumbers) and on which no
    data attribute hides [_compute_tm], the three assignments of
    [compute_spectrum] all succeed: [_k0_array] and [_kx_array] get one
    entry per wavelength and [_kzl_array] one row per wavenumber, nothing
    else is written, and the call then ends with the failed lookup of
    [np.linalg.eye]. *)
Theorem compute_spectrum_well_formed (s : pystate) wl wn ri n0 theta :
  attrs s !! "wavelength_array" = Some (VFloatArr wl) ->
  attrs s !! "wavenumber_array" = Some (VFloatArr wn) ->
  attrs s !! "_refractive_index_array" = Some (VComplexArr2 ri) ->
  attrs s !! "incident_angle" = Some (VFloat theta) ->
  Forall2 (fun row n => row !! 0%nat = Some n) ri n0 ->
  length ri = length wl ->
  length wn <= length ri ->
  attrs s !! "_compute_tm" = None ->
  exists k0 kx kzl,
    length k0 = length wl /\ length kx = length wl /\ length kzl = length wn /\
    compute_spectrum s
      = (Raise eye_error,
         with_attr "_kzl_array" (VComplexArr2 kzl)
           (with_attr "_kx_array" (VComplexArr kx)
              (with_attr "_k0_array" (VFloatArr k0) s))).
Proof.
  intros Hwl Hwn Hri Hth Hcol Hlen Hle Htm.
  exists (map k0_of wl),
         (zip_with (fun n l => kx_of (n, xfsin theta) (k0_of l)) n0 wl),
         (kzl_rows theta wn ri).
  split; [apply length_map |].
  split; [rewrite length_zip_with; apply Forall2_length in Hcol; lia |].
  split; [now apply kzl_rows_length |].
  rewrite (compute_spectrum_run s wl wn ri n0 theta) by assumption.
  unfold tm_error. now rewrite Htm.
Qed.

Lemma compute_spectrum_well_formed_witness :
  exists k0 kx kzl,
    length k0 = 10%nat /\ length kx = 10%nat /\ length kzl = 10%nat /\
    compute_spectrum (new_TmmDriver 100e-9)
      = (Raise eye_error,
         with_attr "_kzl_array" (VComplexArr2 kzl)
           (with_attr "_kx_array" (VComplexArr kx)
              (with_attr "_k0_array" (VFloatArr k0) (new_TmmDriver 100e-9)))).
Proof.
  apply (compute_spectrum_well_formed (new_TmmDriver 100e-9)
           (map Some grid10) (map (xfdiv (Some 1%R)) (map Some grid10))
           (replicate 10 layers3) (replicate 10 (xc 1 0)) (Some 0%R)).
  - reflexivity.
  - reflexivity.
  - reflexivity.
  - reflexivity.
  - repeat constructor.
  - reflexivity.
  - apply Nat.le_refl.
  - reflexivity.
Defined.

Lemma first_column_finite (ri : list (list xcomplex)) (ns : list C) :
  Forall2 (fun row n => row !! 0%nat = Some (Some n)) ri ns ->
  Forall2 (fun row n => row !! 0%nat = Some n) ri (map Some ns).
Proof. induction 1; simpl; constructor; assumption. Qed.

Lemma kx_zero_list (ns : list C) (ls : list R) :
  length ns = length ls -> Forall (fun l => l <> 0%R) ls ->
  zip_with (fun n l => kx_of (n, xfsin (Some 0%R)) (k0_of l)) (map Some ns) (map Some ls)
    = replicate (length ls) (xc 0 0).
Proof.
  revert ns. induction ls as [| l ls IH]; intros [| n ns] Hlen Hnz;
    simpl in *; try reflexivity; try discriminate.
  inversion Hnz as [| ? ? Hl Hls]; subst.
  rewrite (k0_of_wavelength l Hl), kx_normal_incidence. f_equal.
  apply IH; [congruence | assumption].
Qed.

(** [DBL_MAX] is well above every wavevector of an optical grid. *)
Lemma DBL_MAX_lower : (2 ^ 25 <= DBL_MAX)%R.
Proof.
  unfold DBL_MAX.
  assert (H52 : (1 <= 2 ^ 52)%R) by (apply pow_R1_Rle; lra).
  assert (Hinv : (/ 2 ^ 52 <= 1)%R).
  { rewrite <- Rinv_1. apply Rinv_le_contravar; lra. }
  assert (Hpow : (2 ^ 25 <= 2 ^ 1023)%R) by (apply Rle_pow; [lra | lia]).
  assert (H25 : (0 < 2 ^ 25)%R) by (apply pow_lt; lra).
  nra.
Qed.

(** At normal incidence every entry of [_kx_array] is 0, whatever the
    wavelengths and the indices of the incident layer are, as long as they
    are finite and each [2*pi/lambda] is a finite double (the wavelength
    is not 0 and the quotient does not exceed [DBL_MAX]); there is no test
    on the angle. *)
Theorem kx_vanishes_at_normal_incidence (s : pystate) (ls : list R) ri (ns : list C) :
  attrs s !! "wavelength_array" = Some (VFloatArr (map Some ls)) ->
  Forall (fun l => l <> 0%R /\ (Rabs (PI * 2 / l) <= DBL_MAX)%R) ls ->
  attrs s !! "_refractive_index_array" = Some (VComplexArr2 ri) ->
  Forall2 (fun row n => row !! 0%nat = Some (Some n)) ri ns ->
  attrs s !! "incident_angle" = Some (VFloat (Some 0%R)) ->
  length ri = length ls ->
  attrs (snd (compute_spectrum s)) !! "_kx_array"
    = Some (VComplexArr (replicate (length ls) (xc 0 0))).
Proof.
  intros Hwl Hnz Hri Hcol Hth Hlen.
  rewrite (compute_spectrum_kx s (map Some ls) ri (map Some ns) (Some 0%R));
    try assumption.
  - rewrite kx_zero_list; [reflexivity | |].
    + apply Forall2_length in Hcol. congruence.
    + eapply Forall_impl; [exact Hnz |]. now intros l [Hl _].
  - now apply first_column_finite.
  - now rewrite length_map.
Qed.

Lemma grid10_bounds l : In l grid10 -> (400e-9 <= l <= 800e-9)%R.
Proof.
  rewrite grid10_formula. simpl. intros H.
  repeat (destruct H as [H | H]; [subst l; lra |]). destruct H.
Qed.

Lemma grid10_in_range :
  Forall (fun l => l <> 0%R /\ (Rabs (PI * 2 / l) <= DBL_MAX)%R) grid10.
Proof.
  apply Forall_forall. intros l Hl. apply list_elem_of_In, grid10_bounds in Hl.
  split; [lra |].
  pose proof PI_RGT_0 as Hpi0. pose proof PI_4 as Hpi4.
  assert (Hinv0 : (0 < / l)%R) by (apply Rinv_0_lt_compat; lra).
  assert (Hinv : (/ l <= / 400e-9)%R) by (apply Rinv_le_contravar; lra).
  assert (Hq : (0 <= PI * 2 / l <= 8 * / 400e-9)%R) by (unfold Rdiv; nra).
  rewrite Rabs_pos_eq by lra.
  apply Rle_trans with (2 ^ 25)%R; [| exact DBL_MAX_lower].
  apply Rle_trans with (8 * / 400e-9)%R; [lra |]. simpl. lra.
Qed.

Lemma kx_vanishes_at_normal_incidence_witness :
  attrs (snd (compute_spectrum (new_TmmDriver 100e-9))) !! "_kx_array"
    = Some (VComplexArr (replicate (length grid10) (xc 0 0))).
Proof.
  apply (kx_vanishes_at_normal_incidence (new_TmmDriver 100e-9) grid10
           (replicate 10 layers3) (replicate 10 (mkC 1 0))).
  - reflexivity.
  - exact grid10_in_range.
  - reflexivity.
  - repeat constructor.
  - reflexivity.
  - reflexivity.
Defined.

(** [compute_spectrum] takes [k0] from [wavelength_array] but the rows of
    [_kzl_array] from [wavenumber_array], which only the constructor
    writes: after the grid is replaced by one of the same length,
    [_k0_array] follows the new grid and [_kzl_array] is still built from
    the old wavenumbers. *)
Theorem new_grid_does_not_reach_kzl (s : pystate) wl wl' wn ri n0 theta :
  attrs s !! "wavelength_array" = Some (VFloatArr wl) ->
  attrs s !! "wavenumber_array" = Some (VFloatArr wn) ->
  attrs s !! "_refractive_index_array" = Some (VComplexArr2 ri) ->
  attrs s !! "incident_angle" = Some (VFloat theta) ->
  Forall2 (fun row n => row !! 0%nat = Some n) ri n0 ->
  length ri = length wl ->
  length wn <= length ri ->
  length wl' = length wl ->
  attrs (snd (compute_spectrum (with_attr "wavelength_array" (VFloatArr wl') s)))
      !! "_k0_array" = Some (VFloatArr (map k0_of wl')) /\
  attrs (snd (compute_spectrum (with_attr "wavelength_array" (VFloatArr wl') s)))
      !! "_kzl_array" = Some (VComplexArr2 (kzl_rows theta wn ri)) /\
  attrs (snd (compute_spectrum s)) !! "_kzl_array"
    = Some (VComplexArr2 (kzl_rows theta wn ri)).
Proof.
  intros Hwl Hwn Hri Hth Hcol Hlen Hle Hlen'.
  rewrite (compute_spectrum_run s wl wn ri n0 theta) by assumption.
  rewrite (compute_spectrum_run
             (with_attr "wavelength_array" (VFloatArr wl') s) wl' wn ri n0 theta);
    try assumption; simpl;
    rewrite ?lookup_insert_ne by discriminate; try assumption.
  - repeat split; apply lookup_insert_eq.
  - apply lookup_insert_eq.
  - congruence.
Qed.

Lemma new_grid_does_not_reach_kzl_witness :
  attrs (snd (compute_spectrum
                (with_attr "wavelength_array" (VFloatArr (replicate 10 (Some 500e-9%R)))
                   (new_TmmDriver 100e-9))))
      !! "_k0_array" = Some (VFloatArr (map k0_of (replicate 10 (Some 500e-9%R)))) /\
  attrs (snd (compute_spectrum
                (with_attr "wavelength_array" (VFloatArr (replicate 10 (Some 500e-9%R)))
                   (new_TmmDriver 100e-9))))
      !! "_kzl_array"
    = Some (VComplexArr2 (kzl_rows (Some 0%R) (map (xfdiv (Some 1%R)) (map Some grid10))
                                   (replicate 10 layers3))) /\
  attrs (snd (compute_spectrum (new_TmmDriver 100e-9))) !! "_kzl_array"
    = Some (VComplexArr2 (kzl_rows (Some 0%R) (map (xfdiv (Some 1%R)) (map Some grid10))
                                   (replicate 10 layers3))).
Proof.
  apply (new_grid_does_not_reach_kzl (new_TmmDriver 100e-9)
           (map Some grid10) (replicate 10 (Some 500e-9%R))
           (map (xfdiv (Some 1%R)) (map Some grid10))
           (replicate 10 layers3) (replicate 10 (xc 1 0)) (Some 0%R)).
  - reflexivity.
  - reflexivity.
  - reflexivity.
  - reflexivity.
  - repeat constructor.
  - reflexivity.
  - apply Nat.le_refl.
  - reflexivity.
Defined.

(** When the grid and the index array have different numbers of entries
    (neither being 1), [compute_spectrum] raises [ValueError] at
    [_kx_array], after [_k0_array] has been stored: the failed call leaves
    the instance partly updated. *)
Theorem compute_spectrum_grid_mismatch (s : pystate) wl ri n0 theta :
  attrs s !! "wavelength_array" = Some (VFloatArr wl) ->
  attrs s !! "_refractive_index_array" = Some (VComplexArr2 ri) ->
  attrs s !! "incident_angle" = Some (VFloat theta) ->
  Forall2 (fun row n => row !! 0%nat = Some n) ri n0 ->
  length ri <> length wl -> length ri <> 1%nat -> length wl <> 1%nat ->
  compute_spectrum s
    = (Raise (Exn "ValueError" "operands could not be broadcast together"),
       with_attr "_k0_array" (VFloatArr (map k0_of wl)) s).
Proof.
  intros Hwl Hri Hth Hcol Hne H1 H2. unfold compute_spectrum.
  rewrite (bind_ok _ _ _ _ _ (assign_k0_array_run s wl Hwl)).
  apply bind_raise.
  apply (assign_kx_array_mismatch _ ri n0 theta (map k0_of wl)); simpl;
    rewrite ?lookup_insert_ne by discriminate; rewrite ?length_map; try assumption.
  apply lookup_insert_eq.
Qed.

Lemma compute_spectrum_grid_mismatch_witness :
  compute_spectrum (with_attr "wavelength_array" (VFloatArr (replicate 5 (Some 500e-9%R)))
                      (new_TmmDriver 100e-9))
    = (Raise (Exn "ValueError" "operands could not be broadcast together"),
       with_attr "_k0_array" (VFloatArr (map k0_of (replicate 5 (Some 500e-9%R))))
         (with_attr "wavelength_array" (VFloatArr (replicate 5 (Some 500e-9%R)))
            (new_TmmDriver 100e-9))).
Proof.
  apply (compute_spectrum_grid_mismatch
           (with_attr "wavelength_array" (VFloatArr (replicate 5 (Some 500e-9%R)))
              (new_TmmDriver 100e-9))
           (replicate 5 (Some 500e-9%R)) (replicate 10 layers3)
           (replicate 10 (xc 1 0)) (Some 0%R)).
  - reflexivity.
  - reflexivity.
  - reflexivity.
  - repeat constructor.
  - simpl. lia.
  - simpl. lia.
  - simpl. lia.
Defined.

(* ===================================================================== *)
(** ** One pass of the interface-matrix loop, s-polarization *)
(* ===================================================================== *)

Lemma determinant_s_polarization (c : R) (n : C) :
  determinant (Mat2 (xc 1 0) (xc 1 0)
                    (xc (c * re n) (c * im n)) (xc (-1 * c * re n) (-1 * c * im n)))
    = Some (mkC (-2 * c * re n) (-2 * c * im n)).
Proof.
  unfold determinant, xc. simpl. f_equal. unfold Csub, Cmul. simpl. f_equal; ring.
Qed.

Lemma dm_iteration_run s idx i D s' :
  dm_fill idx i s = (Ok D, s') ->
  dm_iteration idx i s
    = (Ok (D, inverse_determinant D), PyState (attrs s') (stdout s' ++ [PrintMat D])).
Proof. intros H. unfold dm_iteration, bind. now rewrite H. Qed.

(** For s-polarization, a pass over layer [i] at wavelength [idx] of an
    instance with finite angle and index raises nothing and writes
    nothing: it builds the rows [[1, 1]] and [[cos(theta)*n,
    -cos(theta)*n]] and prints that matrix.  The inverse of the
    determinant is taken with no test: for the index [n = 0] the
    determinant is zero and [D_inv] holds the result of the division by
    zero, which is not finite. *)
Theorem s_polarization_pass (s : pystate) idx i (theta : R) ri row (n : C) :
  attrs s !! "polarization" = Some (VStr "s") ->
  attrs s !! "incident_angle" = Some (VFloat (Some theta)) ->
  attrs s !! "_refractive_index_array" = Some (VComplexArr2 ri) ->
  ri !! idx = Some row -> row !! i = Some (Some n) ->
  let D := Mat2 (xc 1 0) (xc 1 0)
                (xc (cos theta * re n) (cos theta * im n))
                (xc (-1 * cos theta * re n) (-1 * cos theta * im n)) in
  exists D_inv,
    dm_iteration idx i s
      = (Ok (D, D_inv), PyState (attrs s) (stdout s ++ [PrintMat D])) /\
    (n = C0 -> D_inv = None).
Proof.
  intros Hp Ht Hri Hrow Hn D. exists (inverse_determinant D). split.
  - apply dm_iteration_run.
    now apply (dm_fill_s_polarization s idx i theta ri row n).
  - intros ->. apply inverse_determinant_zero. unfold D.
    rewrite determinant_s_polarization. unfold C0. simpl. do 2 f_equal; ring.
Qed.

(** The pass over the first layer of a stack whose first index is 0. *)
Lemma s_polarization_pass_witness :
  let D := Mat2 (xc 1 0) (xc 1 0)
                (xc (cos 0 * re (mkC 0 0)) (cos 0 * im (mkC 0 0)))
                (xc (-1 * cos 0 * re (mkC 0 0)) (-1 * cos 0 * im (mkC 0 0))) in
  exists D_inv,
    dm_iteration 0 0 driver_n0
      = (Ok (D, D_inv), PyState (attrs driver_n0) (stdout driver_n0 ++ [PrintMat D])) /\
    (mkC 0 0 = C0 -> D_inv = None).
Proof.
  apply (s_polarization_pass driver_n0 0 0 0%R
           (replicate 10 [xc 0 0; xc 1.5 0; xc 1 0]) [xc 0 0; xc 1.5 0; xc 1 0]
           (mkC 0 0)); reflexivity.
Defined.

(* ===================================================================== *)
(** ** What the matrix builders leave behind *)
(* ===================================================================== *)

Lemma reads_only_run {A} names (m : M A) s :
  reads_only names m -> exists o, m s = (o, s).
Proof. intros H. destruct (H s s (agree_refl _ _)) as (o & Ho & _). eauto. Qed.

Lemma reads_only_subscript names v i : reads_only names (subscript v i).
Proof.
  unfold subscript, index_error.
  repeat first
    [ solve [auto with reads]
    | match goal with
      | |- reads_only _ (match ?x with _ => _ end) => destruct x
      end ].
Qed.

Lemma reads_only_as_complex names v : reads_only names (as_complex v).
Proof. unfold as_complex, type_error. destruct v; auto with reads. Qed.

Lemma reads_only_as_float names v : reads_only names (as_float v).
Proof. unfold as_float, type_error. destruct v; auto with reads. Qed.

#[local] Hint Resolve reads_only_subscript reads_only_as_complex
  reads_only_as_float : reads.

(** [_compute_pm] writes no attribute.  When it returns a matrix it has
    printed that matrix and nothing else; when it raises it has printed
    nothing. *)
Theorem _compute_pm_leaves_instance (s : pystate) (idx i : nat) :
  match _compute_pm idx i s with
  | (Ok P, s') => attrs s' = attrs s /\ stdout s' = stdout s ++ [PrintMat P]
  | (Raise e, s') => s' = s
  end.
Proof.
  unfold _compute_pm. cbv zeta.
  repeat match goal with
  | |- match bind ?p ?f s with _ => _ end =>
      let o := fresh "o" in let Ho := fresh "Ho" in
      destruct (reads_only_run ["_kxz_array"; "thickness_array"] p s) as (o & Ho);
      [ reads |];
      unfold bind at 1; rewrite Ho; destruct o as [? | ?]; [| reflexivity]
  end.
  simpl. split; reflexivity.
Qed.

(** What [dm_fill] prints follows the polarization: the message in the
    else branch, nothing in the two others; and only those two can raise. *)
Lemma dm_fill_output (s : pystate) (idx i : nat) (p : string) :
  attrs s !! "polarization" = Some (VStr p) ->
  match dm_fill idx i s with
  | (Ok D, s') =>
      attrs s' = attrs s /\
      stdout s' = stdout s ++ (if bool_decide (p = "s" \/ p = "p") then []
                               else [PrintStr "needs polarization s or p"])
  | (Raise e, s') => s' = s /\ (p = "s" \/ p = "p")
  end.
Proof.
  intros Hp. unfold dm_fill. cbv zeta.
  unfold bind at 1. unfold getattr at 1. rewrite Hp. cbn [py_eq_str].
  destruct (decide (p = "s")) as [Hs | Hs].
  - rewrite (bool_decide_eq_true_2 _ Hs).
    rewrite (bool_decide_eq_true_2 (p = "s" \/ p = "p")) by now left.
    cbv iota. unfold cos_incident, index2.
    repeat match goal with
    | |- match bind ?q ?f s with _ => _ end =>
        let o := fresh "o" in let Ho := fresh "Ho" in
        destruct (reads_only_run
                    ["polarization"; "incident_angle"; "_refractive_index_array";
                     "refractive_index_array"] q s) as (o & Ho);
        [ reads |];
        unfold bind at 1; rewrite Ho; destruct o as [? | ?];
        [| now (split; [reflexivity | left])]
    end.
    simpl. split; [reflexivity | now rewrite app_nil_r].
  - rewrite (bool_decide_eq_false_2 _ Hs). cbv iota.
    unfold bind at 1. unfold getattr at 1. rewrite Hp. cbn [py_eq_str].
    destruct (decide (p = "p")) as [Hpp | Hpp].
    + rewrite (bool_decide_eq_true_2 _ Hpp).
      rewrite (bool_decide_eq_true_2 (p = "s" \/ p = "p")) by now right.
      cbv iota. unfold index2.
      repeat match goal with
      | |- match bind ?q ?f s with _ => _ end =>
          let o := fresh "o" in let Ho := fresh "Ho" in
          destruct (reads_only_run
                      ["polarization"; "incident_angle"; "_refractive_index_array";
                       "refractive_index_array"] q s) as (o & Ho);
          [ reads |];
          unfold bind at 1; rewrite Ho; destruct o as [? | ?];
          [| now (split; [reflexivity | right])]
      end.
      simpl. split; [reflexivity | now rewrite app_nil_r].
    + rewrite (bool_decide_eq_false_2 _ Hpp).
      rewrite (bool_decide_eq_false_2 (p = "s" \/ p = "p")) by (intros [? | ?]; contradiction).
      simpl. split; reflexivity.
Qed.

(** A pass of the interface-matrix loop on an instance whose polarization
    is a string writes no attribute.  When it ends normally it has
    printed the [D] it returns, preceded by "needs polarization s or p"
    exactly when the polarization is neither ['s'] nor ['p']; when it
    raises, the polarization is ['s'] or ['p'] and it has printed
    nothing. *)
Theorem dm_iteration_leaves_instance (s : pystate) (idx i : nat) (p : string) :
  attrs s !! "polarization" = Some (VStr p) ->
  match dm_iteration idx i s with
  | (Ok (D, D_inv), s') =>
      attrs s' = attrs s /\
      stdout s' = stdout s ++ (if bool_decide (p = "s" \/ p = "p") then []
                               else [PrintStr "needs polarization s or p"])
                           ++ [PrintMat D]
  | (Raise e, s') => s' = s /\ (p = "s" \/ p = "p")
  end.
Proof.
  intros Hp. pose proof (dm_fill_output s idx i p Hp) as Hfill.
  unfold dm_iteration, bind.
  destruct (dm_fill idx i s) as [[D | e] s1]; [| exact Hfill].
  simpl. destruct Hfill as (Ha & Ho). rewrite Ho. split; [exact Ha |].
  now rewrite <- app_assoc.
Qed.

(** The pass on the driver whose caller set the polarization ['x']. *)
Lemma dm_iteration_leaves_instance_witness :
  match dm_iteration 0 1 driver_x with
  | (Ok (D, D_inv), s') =>
      attrs s' = attrs driver_x /\
      stdout s' = stdout driver_x
                    ++ (if bool_decide ("x" = "s" \/ "x" = "p") then []
                        else [PrintStr "needs polarization s or p"])
                    ++ [PrintMat D]
  | (Raise e, s') => s' = driver_x /\ ("x" = "s" \/ "x" = "p")
  end.
Proof.
  apply (dm_iteration_leaves_instance driver_x 0 1 "x"). reflexivity.
Defined.

(* ===================================================================== *)
(** ** Sequences of calls on a constructed driver *)
(* ===================================================================== *)

Lemma _compute_pm_no_kxz idx i s :
  attrs s !! "_kxz_array" = None ->
  _compute_pm idx i s = (Raise (no_attribute "_kxz_array"), s).
Proof.
  intros H. unfold _compute_pm. cbv zeta. unfold bind, getattr. rewrite H. reflexivity.
Qed.

Lemma compute_spectrum_stdout s : stdout (snd (compute_spectrum s)) = stdout s.
Proof.
  destruct (compute_spectrum_cases s)
    as [(e & _ & Hs) | [(v1 & e & _ & _ & Hs) | [(v1 & v2 & e & _ & _ & _ & Hs)
       | (v1 & v2 & v3 & _ & _ & _ & Hs)]]];
    rewrite Hs; reflexivity.
Qed.

Lemma invoke_raises c s :
  attrs s !! "_kxz_array" = None -> exists e, fst (invoke c s) = Raise e.
Proof.
  intros H. destruct c; simpl.
  - destruct (fails_compute_spectrum s) as (e & s' & Hs). exists e. now rewrite Hs.
  - eexists. reflexivity.
  - eexists. reflexivity.
  - eexists. reflexivity.
  - exists (no_attribute "_kxz_array"). unfold bind. now rewrite _compute_pm_no_kxz.
Qed.

Lemma invoke_keeps c s name :
  attrs s !! "_kxz_array" = None -> name ∉ spectrum_writes ->
  attrs (snd (invoke c s)) !! name = attrs s !! name /\
  stdout (snd (invoke c s)) = stdout s.
Proof.
  intros H. unfold spectrum_writes. rewrite !not_elem_of_cons. intros (H1 & H2 & H3 & _).
  destruct c; simpl.
  - split; [now apply preserves_compute_spectrum | apply compute_spectrum_stdout].
  - split; reflexivity.
  - split; reflexivity.
  - split; reflexivity.
  - unfold bind. rewrite _compute_pm_no_kxz by assumption. split; reflexivity.
Qed.

Lemma invoke_all_keeps cs s :
  attrs s !! "_kxz_array" = None ->
  stdout (invoke_all cs s) = stdout s /\
  forall name, name ∉ spectrum_writes -> attrs (invoke_all cs s) !! name = attrs s !! name.
Proof.
  assert (Hk : "_kxz_array" ∉ spectrum_writes) by (unfold spectrum_writes; not_in_names).
  revert s. induction cs as [| c cs IH]; intros s H.
  - split; [reflexivity | intros; reflexivity].
  - change (invoke_all (c :: cs) s) with (invoke_all cs (snd (invoke c s))).
    destruct (invoke_keeps c s "_kxz_array" H Hk) as (Hk' & Ho').
    destruct (IH (snd (invoke c s))) as (Ho & Ha); [congruence |].
    split; [congruence |].
    intros name Hn. rewrite (Ha name Hn). now apply invoke_keeps.
Qed.

(** Whatever methods a client calls on a constructed driver, in whatever
    order and with whatever arguments, and catching what they raise: every
    one of the calls ends with an exception, nothing is ever printed, and
    every attribute other than the three arrays of [compute_spectrum] is
    as the constructor left it (so no spectrum, no [_tm], no [_kz_array]
    and no [_kxz_array] ever appears). *)
Theorem no_call_sequence_completes (thickness : R) (cs : list call) (c : call) :
  let s := invoke_all cs (new_TmmDriver thickness) in
  (exists e, fst (invoke c s) = Raise e) /\
  stdout s = [] /\
  (forall name, name ∈ spectrum_writes \/
                attrs s !! name = attrs (new_TmmDriver thickness) !! name).
Proof.
  intros s.
  destruct (invoke_all_keeps cs (new_TmmDriver thickness)) as (Ho & Ha); [reflexivity |].
  assert (Hk : "_kxz_array" ∉ spectrum_writes) by (unfold spectrum_writes; not_in_names).
  split; [| split].
  - apply invoke_raises. unfold s. now rewrite (Ha _ Hk).
  - exact Ho.
  - intros name. destruct (decide (name ∈ spectrum_writes)) as [Hin | Hout].
    + now left.
    + right. now apply Ha.
Qed.

(* ===================================================================== *)
(** ** The propagation matrix of a layer of zero thickness *)
(* ===================================================================== *)

Lemma Cexp_mul_zero (z : C) : Cexp (Cmul z (mkC 0 0)) = mkC 1 0.
Proof.
  unfold Cexp, Cmul. simpl.
  replace (re z * 0 - im z * 0)%R with 0%R by ring.
  replace (re z * 0 + im z * 0)%R with 0%R by ring.
  rewrite exp_0, cos_0, sin_0. f_equal; ring.
Qed.

(** For a layer of thickness 0 (as the first and last layers of a stack
    have) and a finite wavevector component, [_compute_pm] returns the
    identity matrix. *)
Theorem propagation_matrix_identity_at_zero_thickness
    (s : pystate) idx i ks ds row (k : C) :
  attrs s !! "_kxz_array" = Some (VComplexArr ks) -> ks !! idx = Some (Some k) ->
  attrs s !! "thickness_array" = Some (VComplexArr2 ds) ->
  ds !! idx = Some row -> row !! i = Some (xc 0 0) ->
  fst (_compute_pm idx i s) = Ok (Mat2 (xc 1 0) (xc 0 0) (xc 0 0) (xc 1 0)).
Proof.
  intros Hk Hki Hd Hdi Hdr.
  rewrite (_compute_pm_diagonal s idx i ks ds row (Some k) (xc 0 0)) by assumption.
  unfold xc. simpl. now rewrite !Cexp_mul_zero.
Qed.

Lemma propagation_matrix_identity_at_zero_thickness_witness :
  fst (_compute_pm 0 2
         (with_attr "_kxz_array" (VComplexArr [xc 2 1])
            (with_attr "thickness_array" (VComplexArr2 [[xc 0 0; xc 7 0; xc 0 0]])
               empty_instance)))
    = Ok (Mat2 (xc 1 0) (xc 0 0) (xc 0 0) (xc 1 0)).
Proof.
  apply (propagation_matrix_identity_at_zero_thickness _ 0 2
           [xc 2 1] [[xc 0 0; xc 7 0; xc 0 0]] [xc 0 0; xc 7 0; xc 0 0] (mkC 2 1));
    reflexivity.
Defined.
